(** * A shallow embedding of [runner/runner.go]

    The runner is a fluent builder around a container engine client: setters
    accumulate the configuration, [Start] and [Stop] drive the engine.  The
    engine itself (the docker client library) is an external collaborator and
    is modelled as an oracle whose answers may depend on the calls made so
    far; every call that reaches it is recorded in a trace. *)

From Stdlib Require Import ZArith Lia Ascii String.
From stdpp Require Import base option list vector strings pretty gmap.

Open Scope string_scope.
Open Scope Z_scope.

(** ** Go's [strings] and [strconv] helpers used by the runner *)

Module strings.

(** [strings.HasPrefix(s, prefix)] *)
Fixpoint HasPrefix (s prefix : string) {struct prefix} : bool :=
  match prefix, s with
  | EmptyString, _ => true
  | String _ _, EmptyString => false
  | String c prefix', String d s' =>
      if decide (c = d) then HasPrefix s' prefix' else false
  end.

(** [strings.Index(s, substr)]: the index of the first instance of
    [substr] in [s], or -1 when there is none. *)
Fixpoint Index (s substr : string) : Z :=
  if HasPrefix s substr then 0
  else match s with
       | EmptyString => -1
       | String _ s' =>
           let i := Index s' substr in
           if i <? 0 then -1 else i + 1
       end.

(** [strings.Contains(s, substr)] is [Index(s, substr) >= 0]. *)
Definition Contains (s substr : string) : bool := 0 <=? Index s substr.

End strings.

Module strconv.

(** [strconv.Itoa(i)]: the decimal rendering of [i], with a leading minus
    sign for negative numbers. *)
Definition Itoa (i : Z) : string := pretty i.

End strconv.

(** The mathematical notion [strings.Contains] decides: [sub] occurs in [s]
    when [s] splits as a prefix, [sub], and a suffix. *)
Definition is_substring (sub s : string) : Prop :=
  ∃ pre post : string, s = pre +:+ sub +:+ post.

(** ** Errors

    [ErrNoContainerId] is one value made by [errors.New] when the package is
    initialised; errors that come out of the engine are different values,
    whatever their text.  [fmt.Errorf] with the [%w] verb builds a wrapper
    that keeps the formatted message and the wrapped error. *)

Inductive error : Type :=
  | ErrNoContainerId
  | EngineError (msg : string)
  | wrapError (msg : string) (err : error).

Global Instance error_eq_dec : EqDecision error.
Proof. solve_decision. Defined.

(** The [Error()] method. *)
Definition Error (e : error) : string :=
  match e with
  | ErrNoContainerId => "container id does not exist"
  | EngineError msg => msg
  | wrapError msg _ => msg
  end.


(** [errors.Is(err, target)]: [target] is found somewhere on the chain of
    [err]. *)
Fixpoint errors_Is (err target : error) : bool :=
  if decide (err = target) then true
  else match err with
       | wrapError _ inner => errors_Is inner target
       | _ => false
       end.

(** [fmt.Errorf("<stage>: %w", err)] *)
Definition Errorf_w (stage : string) (err : error) : error :=
  wrapError (stage +:+ ": " +:+ Error err) err.

(** ** Data model *)

Definition DefaultHostAddress : string := "127.0.0.1".

Definition RegistryExtensionOptions : list string :=
  [".com"; ".io"; ".org"; ".net"].

(** [nat.Port], [nat.PortBinding], [nat.PortSet] and [nat.PortMap] of
    [docker/go-connections]. *)
Definition Port : Type := string.

Record PortBinding : Type := mkPortBinding {
  HostIP : string;
  HostPort : string
}.

Global Instance PortBinding_eq_dec : EqDecision PortBinding.
Proof. solve_decision. Defined.

Abbreviation PortSet := (gset string).
Abbreviation PortMap := (gmap string (list PortBinding)).

(** Handles owned by the engine library: a client connection, and the
    caller's [context.Context]. *)
Inductive Client : Type := ClientHandle (n : positive).
Inductive Ctx : Type := CtxHandle (n : positive).

Global Instance Client_eq_dec : EqDecision Client.
Proof. solve_decision. Defined.

Record ContainerRunnerOpts : Type := mkOpts {
  RemoveOnFinalization : bool
}.

(** The runner.  Go maps and pointers may be nil: [None] is the nil map and
    the nil pointer. *)
Record ContainerRunner : Type := mkRunner {
  name : string;
  image : string;
  ports : list string;
  env : list string;
  exposedPorts : option PortSet;
  portBindings : option PortMap;
  opts : option ContainerRunnerOpts;
  client : option Client;
  id : string
}.

Global Instance ContainerRunnerOpts_eq_dec : EqDecision ContainerRunnerOpts.
Proof. solve_decision. Defined.

Global Instance ContainerRunner_eq_dec : EqDecision ContainerRunner.
Proof. solve_decision. Defined.

(** Field assignments [r.f = v]. *)
Definition set_name (v : string) (r : ContainerRunner) : ContainerRunner :=
  mkRunner v (image r) (ports r) (env r) (exposedPorts r) (portBindings r)
           (opts r) (client r) (id r).
Definition set_image (v : string) (r : ContainerRunner) : ContainerRunner :=
  mkRunner (name r) v (ports r) (env r) (exposedPorts r) (portBindings r)
           (opts r) (client r) (id r).
Definition set_ports (v : list string) (r : ContainerRunner) : ContainerRunner :=
  mkRunner (name r) (image r) v (env r) (exposedPorts r) (portBindings r)
           (opts r) (client r) (id r).
Definition set_env (v : list string) (r : ContainerRunner) : ContainerRunner :=
  mkRunner (name r) (image r) (ports r) v (exposedPorts r) (portBindings r)
           (opts r) (client r) (id r).
Definition set_exposedPorts (v : option PortSet) (r : ContainerRunner)
  : ContainerRunner :=
  mkRunner (name r) (image r) (ports r) (env r) v (portBindings r)
           (opts r) (client r) (id r).
Definition set_portBindings (v : option PortMap) (r : ContainerRunner)
  : ContainerRunner :=
  mkRunner (name r) (image r) (ports r) (env r) (exposedPorts r) v
           (opts r) (client r) (id r).
Definition set_opts (v : option ContainerRunnerOpts) (r : ContainerRunner)
  : ContainerRunner :=
  mkRunner (name r) (image r) (ports r) (env r) (exposedPorts r)
           (portBindings r) v (client r) (id r).
Definition set_client (v : option Client) (r : ContainerRunner)
  : ContainerRunner :=
  mkRunner (name r) (image r) (ports r) (env r) (exposedPorts r)
           (portBindings r) (opts r) v (id r).
Definition set_id (v : string) (r : ContainerRunner) : ContainerRunner :=
  mkRunner (name r) (image r) (ports r) (env r) (exposedPorts r)
           (portBindings r) (opts r) (client r) v.

(** ** The default container name

    [DefaultContainerName] is [uuid.New().String()], evaluated once when the
    package is initialised.  The sixteen bytes are drawn at random; their
    rendering is fixed: lower-case hexadecimal in groups of 4, 2, 2, 2 and 6
    bytes separated by dashes. *)

Module uuid.

Definition UUID : Type := vec ascii 16.

Definition hextable : string := "0123456789abcdef".

Definition hexdigit (n : N) : ascii :=
  default "0"%char (String.get (N.to_nat n) hextable).

(** [hex.Encode] of one byte: the high nibble, then the low one. *)
Definition encodeByte (b : ascii) : string :=
  let n := N_of_ascii b in
  String (hexdigit (N.shiftr n 4)) (String (hexdigit (N.land n 15)) "").

(** [hex.Encode] of a slice. *)
Definition encode (bs : list ascii) : string :=
  foldr (λ b acc, encodeByte b +:+ acc) "" bs.

(** The slice [b[lo:hi]]. *)
Definition slice {A} (lo hi : nat) (b : list A) : list A :=
  take (hi - lo) (drop lo b).

Definition String (u : UUID) : string :=
  let b := vec_to_list u in
  encode (slice 0 4 b) +:+ "-" +:+ encode (slice 4 6 b) +:+ "-" +:+
  encode (slice 6 8 b) +:+ "-" +:+ encode (slice 8 10 b) +:+ "-" +:+
  encode (slice 10 16 b).

End uuid.

(** ** Outcomes and the state monad of the methods

    A Go call either returns or panics; what it did to the heap before
    panicking stays done, so the state is threaded through both. *)

Inductive panic : Type :=
  | NilPointerDereference   (* invalid memory address or nil pointer dereference *)
  | NilMapAssignment.       (* assignment to entry in nil map *)

Inductive outcome (A : Type) : Type :=
  | Returned (a : A)
  | Panicked (p : panic).
Arguments Returned {A} a.
Arguments Panicked {A} p.

Definition M (St A : Type) : Type := St → outcome A * St.

Global Instance M_ret {St} : MRet (M St) := λ A a s, (Returned a, s).

Global Instance M_bind {St} : MBind (M St) := λ A B k m s,
  match m s with
  | (Returned a, s') => k a s'
  | (Panicked p, s') => (Panicked p, s')
  end.

Definition raise {St A} (p : panic) : M St A := λ s, (Panicked p, s).
Definition get {St} : M St St := λ s, (Returned s, s).
Definition modify {St} (f : St → St) : M St unit := λ s, (Returned tt, f s).

(** [for _, x := range xs { body }] *)
Fixpoint for_range {St A} (xs : list A) (body : A → M St unit) : M St unit :=
  match xs with
  | [] => mret tt
  | x :: xs' => body x ;; for_range xs' body
  end.

(** ** The container engine

    The arguments the runner passes to [ContainerCreate]: the fields of
    [container.Config] and [container.HostConfig] it fills in. *)

Record Config : Type := mkConfig {
  Image : string;
  ExposedPorts : option PortSet
}.

Record HostConfig : Type := mkHostConfig {
  PortBindings : option PortMap
}.

(** [time.Minute], in nanoseconds. *)
Definition time_Minute : Z := 60 * 1000000000.

(** One request to the engine library, with its arguments. *)
Inductive EngineCall : Type :=
  | CallNewEnvClient
  | CallImagePull (c : Client) (ctx : Ctx) (ref : string)
  | CallContainerCreate (c : Client) (ctx : Ctx) (config : Config)
                        (hostConfig : HostConfig) (containerName : string)
  | CallContainerStart (c : Client) (ctx : Ctx) (containerID : string)
  | CallContainerStop (c : Client) (ctx : Ctx) (containerID : string)
                      (timeout : Z)
  | CallContainerRemove (c : Client) (ctx : Ctx) (containerID : string).

Global Instance Ctx_eq_dec : EqDecision Ctx.
Proof. solve_decision. Defined.
Global Instance Config_eq_dec : EqDecision Config.
Proof. solve_decision. Defined.
Global Instance HostConfig_eq_dec : EqDecision HostConfig.
Proof. solve_decision. Defined.
Global Instance EngineCall_eq_dec : EqDecision EngineCall.
Proof. solve_decision. Defined.

(** The engine's answers.  Each may depend on the history of calls; an error
    is given by its message, [None] is the nil error.  [NewEnvClient] answers
    with the pointer and the error it returns, [ContainerCreate] with the
    [ID] of its response and the error. *)
Record Engine : Type := mkEngine {
  NewEnvClient : list EngineCall → option Client * option string;
  ImagePull : list EngineCall → Client → Ctx → string → option string;
  ContainerCreate : list EngineCall → Client → Ctx → Config → HostConfig →
                    string → string * option string;
  ContainerStart : list EngineCall → Client → Ctx → string → option string;
  ContainerStop : list EngineCall → Client → Ctx → string → Z → option string;
  ContainerRemove : list EngineCall → Client → Ctx → string → option string
}.

(** What the methods act on besides the runner: the calls that reached the
    engine and the lines written with [log.Infoln], oldest first. *)
Record World : Type := mkWorld {
  calls : list EngineCall;
  logged : list string
}.

Definition State : Type := ContainerRunner * World.

(** Reading and writing the receiver's fields. *)
Definition load {A} (f : ContainerRunner → A) : M State A :=
  λ s, (Returned (f s.1), s).
Definition store (f : ContainerRunner → ContainerRunner) : M State unit :=
  modify (λ s, (f s.1, s.2)).

Definition log_Infoln (line : string) : M State unit :=
  modify (λ s, (s.1, mkWorld (calls s.2) (logged s.2 ++ [line]))).

(** A request that reaches the engine: it is answered from the history so
    far and appended to it. *)
Definition request {A} (call : EngineCall) (answer : list EngineCall → A)
  : M State A :=
  λ s, (Returned (answer (calls s.2)),
        (s.1, mkWorld (calls s.2 ++ [call]) (logged s.2))).

(** A method called through a [*client.Client].  The library's methods read
    the fields of their receiver to build the request, so a call through the
    nil pointer is taken to panic before any request is made. *)
Definition through {A} (c : option Client) (call : Client → EngineCall)
    (answer : Client → list EngineCall → A) : M State A :=
  match c with
  | None => raise NilPointerDereference
  | Some c => request (call c) (answer c)
  end.

Definition engine_error (e : option string) : option error :=
  EngineError <$> e.

Section runner.

(** The sixteen random bytes drawn when the package is initialised, and the
    engine the process talks to. *)
Variable init_uuid : uuid.UUID.
Variable E : Engine.

Definition DefaultContainerName : string := uuid.String init_uuid.

Definition client_NewEnvClient : M State (option Client * option error) :=
  request CallNewEnvClient
          (λ h, ((NewEnvClient E h).1, engine_error (NewEnvClient E h).2)).

Definition client_ImagePull (c : option Client) (ctx : Ctx) (ref : string)
  : M State (option error) :=
  through c (λ c, CallImagePull c ctx ref)
          (λ c h, engine_error (ImagePull E h c ctx ref)).

Definition client_ContainerCreate (c : option Client) (ctx : Ctx)
    (config : Config) (hostConfig : HostConfig) (containerName : string)
  : M State (string * option error) :=
  through c (λ c, CallContainerCreate c ctx config hostConfig containerName)
          (λ c h, let a := ContainerCreate E h c ctx config hostConfig
                                           containerName in
                  (a.1, engine_error a.2)).

Definition client_ContainerStart (c : option Client) (ctx : Ctx)
    (containerID : string) : M State (option error) :=
  through c (λ c, CallContainerStart c ctx containerID)
          (λ c h, engine_error (ContainerStart E h c ctx containerID)).

Definition client_ContainerStop (c : option Client) (ctx : Ctx)
    (containerID : string) (timeout : Z) : M State (option error) :=
  through c (λ c, CallContainerStop c ctx containerID timeout)
          (λ c h, engine_error (ContainerStop E h c ctx containerID timeout)).

Definition client_ContainerRemove (c : option Client) (ctx : Ctx)
    (containerID : string) : M State (option error) :=
  through c (λ c, CallContainerRemove c ctx containerID)
          (λ c h, engine_error (ContainerRemove E h c ctx containerID)).

(** *** The builder *)

Definition NewContainerRunner : ContainerRunner :=
  {| name := ""; image := ""; ports := []; env := [];
     exposedPorts := Some ∅;
     portBindings := Some ∅;
     opts := Some {| RemoveOnFinalization := true |};
     client := None;
     id := "" |}.

(** One turn of the loop of [WithPorts]. *)
Definition WithPorts_body (p : Z) : M ContainerRunner unit :=
  let port := strconv.Itoa p in
  modify (λ r, set_ports (ports r ++ [port]) r) ;;
  r ← get;
  match exposedPorts r with
  | None => raise NilMapAssignment
  | Some s => modify (set_exposedPorts (Some ({[ port ]} ∪ s)))
  end ;;
  r ← get;
  match portBindings r with
  | None => raise NilMapAssignment
  | Some m =>
      modify (set_portBindings
                (Some (<[ port := [ {| HostIP := DefaultHostAddress;
                                       HostPort := port |} ] ]> m)))
  end.

Definition WithPorts (ps : list Z) : M ContainerRunner unit :=
  for_range ps WithPorts_body.

Fixpoint substringContainedInSlice (str : string) (substrs : list string)
  : bool :=
  match substrs with
  | [] => false
  | s :: rest =>
      if strings.Contains str s then true
      else substringContainedInSlice str rest
  end.

Definition WithImage (image : string) (r : ContainerRunner) : ContainerRunner :=
  let r := set_image image r in
  if negb (substringContainedInSlice image RegistryExtensionOptions)
  then set_image ("docker.io/library/" +:+ image) r
  else r.

Definition WithName (name : string) (r : ContainerRunner) : ContainerRunner :=
  let r := set_name name r in
  if decide (String.length name = 0%nat)
  then set_name DefaultContainerName r
  else r.

Definition WithEnvironmentVariable (key val : string) (r : ContainerRunner)
  : ContainerRunner :=
  set_env (env r ++ [key +:+ "=" +:+ val]) r.

Definition WithOptions (o : option ContainerRunnerOpts) (r : ContainerRunner)
  : ContainerRunner :=
  set_opts o r.

(** *** The lifecycle *)

Definition Start (ctx : Ctx) : M State (option error) :=
  '(c, err) ← client_NewEnvClient;
  store (set_client c) ;;
  match err with
  | Some err => mret (Some (Errorf_w "creating env client" err))
  | None =>
  log_Infoln "pulling image" ;;
  c ← load client;
  img ← load image;
  err ← client_ImagePull c ctx img;
  match err with
  | Some err => mret (Some (Errorf_w "pulling image" err))
  | None =>
  log_Infoln "creating container" ;;
  c ← load client;
  r ← load (λ r, r);
  '(respID, err) ← client_ContainerCreate c ctx
      {| Image := image r; ExposedPorts := exposedPorts r |}
      {| PortBindings := portBindings r |}
      (name r);
  match err with
  | Some err => mret (Some (Errorf_w "creating container" err))
  | None =>
  store (set_id respID) ;;
  log_Infoln "starting container" ;;
  c ← load client;
  i ← load id;
  err ← client_ContainerStart c ctx i;
  match err with
  | Some err => mret (Some (Errorf_w "starting container" err))
  | None =>
  log_Infoln "container started" ;;
  mret None
  end end end end.

Definition Stop (ctx : Ctx) : M State (option error) :=
  log_Infoln "stopping container" ;;
  i ← load id;
  if decide (String.length i = 0%nat) then mret (Some ErrNoContainerId)
  else
  let timeout := time_Minute in
  c ← load client;
  i ← load id;
  err ← client_ContainerStop c ctx i timeout;
  match err with
  | Some err => mret (Some (Errorf_w "stopping container" err))
  | None =>
  log_Infoln "container stopped" ;;
  o ← load opts;
  match o with
  | None => raise NilPointerDereference
  | Some o =>
  if RemoveOnFinalization o then
    log_Infoln "removing container" ;;
    c ← load client;
    i ← load id;
    err ← client_ContainerRemove c ctx i;
    match err with
    | Some err => mret (Some (Errorf_w "removing container" err))
    | None =>
    log_Infoln "container removed" ;;
    mret None
    end
  else mret None
  end end.

End runner.

(** A world in which nothing has happened yet. *)
Definition fresh_world : World := {| calls := []; logged := [] |}.

(** ** What [WithPorts] builds *)

(** [r.WithPorts(ps1...).WithPorts(ps2...)...]: the calls one after the
    other on the same runner. *)
Definition chain_WithPorts (pss : list (list Z)) : M ContainerRunner unit :=
  for_range pss WithPorts.

(** The binding [WithPorts] writes for a port. *)
Definition loopback (port : string) : list PortBinding :=
  [ {| HostIP := "127.0.0.1"; HostPort := port |} ].

Definition expose_all (ps : list Z) (s : gset string) : gset string :=
  foldl (λ s p, {[ strconv.Itoa p ]} ∪ s) s ps.

Definition bind_all (ps : list Z) (m : gmap string (list PortBinding))
  : gmap string (list PortBinding) :=
  foldl (λ m p, <[ strconv.Itoa p := loopback (strconv.Itoa p) ]> m) m ps.

(** ** The lifecycle, case by case

    [Start] and [Stop] are straight-line code with early returns, so a run is
    one of a handful of paths, each decided by the engine's answers.  The two
    relations below list the paths with the outcome, the runner and the world
    each one ends in. *)

(** The world after further requests and log lines. *)
Definition extend (w : World) (cs : list EngineCall) (ls : list string)
  : World :=
  {| calls := calls w ++ cs; logged := logged w ++ ls |}.

(** The arguments [Start] passes to [ContainerCreate]. *)
Definition create_call (c : Client) (ctx : Ctx) (r : ContainerRunner)
  : EngineCall :=
  CallContainerCreate c ctx
    {| Image := image r; ExposedPorts := exposedPorts r |}
    {| PortBindings := portBindings r |} (name r).

Definition create_answer (E : Engine) (h : list EngineCall) (c : Client)
    (ctx : Ctx) (r : ContainerRunner) : string * option string :=
  ContainerCreate E h c ctx
    {| Image := image r; ExposedPorts := exposedPorts r |}
    {| PortBindings := portBindings r |} (name r).

Section lifecycle_paths.

Variable E : Engine.
Variable ctx : Ctx.

Inductive Start_run (r : ContainerRunner) (w : World)
  : outcome (option error) → ContainerRunner → World → Prop :=
  | Start_client_fails c msg :
      NewEnvClient E (calls w) = (c, Some msg) →
      Start_run r w
        (Returned (Some (Errorf_w "creating env client" (EngineError msg))))
        (set_client c r)
        (extend w [CallNewEnvClient] [])
  | Start_client_nil :
      NewEnvClient E (calls w) = (None, None) →
      Start_run r w
        (Panicked NilPointerDereference)
        (set_client None r)
        (extend w [CallNewEnvClient] ["pulling image"])
  | Start_pull_fails c msg :
      NewEnvClient E (calls w) = (Some c, None) →
      ImagePull E (calls w ++ [CallNewEnvClient]) c ctx (image r)
        = Some msg →
      Start_run r w
        (Returned (Some (Errorf_w "pulling image" (EngineError msg))))
        (set_client (Some c) r)
        (extend w [CallNewEnvClient; CallImagePull c ctx (image r)]
                ["pulling image"])
  | Start_create_fails c ID msg :
      NewEnvClient E (calls w) = (Some c, None) →
      ImagePull E (calls w ++ [CallNewEnvClient]) c ctx (image r) = None →
      create_answer E
        (calls w ++ [CallNewEnvClient; CallImagePull c ctx (image r)])
        c ctx r = (ID, Some msg) →
      Start_run r w
        (Returned (Some (Errorf_w "creating container" (EngineError msg))))
        (set_client (Some c) r)
        (extend w [CallNewEnvClient; CallImagePull c ctx (image r);
                   create_call c ctx r]
                ["pulling image"; "creating container"])
  | Start_start_fails c ID msg :
      NewEnvClient E (calls w) = (Some c, None) →
      ImagePull E (calls w ++ [CallNewEnvClient]) c ctx (image r) = None →
      create_answer E
        (calls w ++ [CallNewEnvClient; CallImagePull c ctx (image r)])
        c ctx r = (ID, None) →
      ContainerStart E
        (calls w ++ [CallNewEnvClient; CallImagePull c ctx (image r);
                     create_call c ctx r])
        c ctx ID = Some msg →
      Start_run r w
        (Returned (Some (Errorf_w "starting container" (EngineError msg))))
        (set_id ID (set_client (Some c) r))
        (extend w [CallNewEnvClient; CallImagePull c ctx (image r);
                   create_call c ctx r; CallContainerStart c ctx ID]
                ["pulling image"; "creating container";
                 "starting container"])
  | Start_succeeds c ID :
      NewEnvClient E (calls w) = (Some c, None) →
      ImagePull E (calls w ++ [CallNewEnvClient]) c ctx (image r) = None →
      create_answer E
        (calls w ++ [CallNewEnvClient; CallImagePull c ctx (image r)])
        c ctx r = (ID, None) →
      ContainerStart E
        (calls w ++ [CallNewEnvClient; CallImagePull c ctx (image r);
                     create_call c ctx r])
        c ctx ID = None →
      Start_run r w
        (Returned None)
        (set_id ID (set_client (Some c) r))
        (extend w [CallNewEnvClient; CallImagePull c ctx (image r);
                   create_call c ctx r; CallContainerStart c ctx ID]
                ["pulling image"; "creating container";
                 "starting container"; "container started"]).

Inductive Stop_run (r : ContainerRunner) (w : World)
  : outcome (option error) → ContainerRunner → World → Prop :=
  | Stop_no_id :
      id r = "" →
      Stop_run r w (Returned (Some ErrNoContainerId)) r
               (extend w [] ["stopping container"])
  | Stop_client_nil :
      id r ≠ "" → client r = None →
      Stop_run r w (Panicked NilPointerDereference) r
               (extend w [] ["stopping container"])
  | Stop_stop_fails c msg :
      id r ≠ "" → client r = Some c →
      ContainerStop E (calls w) c ctx (id r) time_Minute = Some msg →
      Stop_run r w
        (Returned (Some (Errorf_w "stopping container" (EngineError msg))))
        r
        (extend w [CallContainerStop c ctx (id r) time_Minute]
                ["stopping container"])
  | Stop_opts_nil c :
      id r ≠ "" → client r = Some c →
      ContainerStop E (calls w) c ctx (id r) time_Minute = None →
      opts r = None →
      Stop_run r w (Panicked NilPointerDereference) r
        (extend w [CallContainerStop c ctx (id r) time_Minute]
                ["stopping container"; "container stopped"])
  | Stop_keeps_container c o :
      id r ≠ "" → client r = Some c →
      ContainerStop E (calls w) c ctx (id r) time_Minute = None →
      opts r = Some o → RemoveOnFinalization o = false →
      Stop_run r w (Returned None) r
        (extend w [CallContainerStop c ctx (id r) time_Minute]
                ["stopping container"; "container stopped"])
  | Stop_remove_fails c o msg :
      id r ≠ "" → client r = Some c →
      ContainerStop E (calls w) c ctx (id r) time_Minute = None →
      opts r = Some o → RemoveOnFinalization o = true →
      ContainerRemove E
        (calls w ++ [CallContainerStop c ctx (id r) time_Minute])
        c ctx (id r) = Some msg →
      Stop_run r w
        (Returned (Some (Errorf_w "removing container" (EngineError msg))))
        r
        (extend w [CallContainerStop c ctx (id r) time_Minute;
                   CallContainerRemove c ctx (id r)]
                ["stopping container"; "container stopped";
                 "removing container"])
  | Stop_removes_container c o :
      id r ≠ "" → client r = Some c →
      ContainerStop E (calls w) c ctx (id r) time_Minute = None →
      opts r = Some o → RemoveOnFinalization o = true →
      ContainerRemove E
        (calls w ++ [CallContainerStop c ctx (id r) time_Minute])
        c ctx (id r) = None →
      Stop_run r w (Returned None) r
        (extend w [CallContainerStop c ctx (id r) time_Minute;
                   CallContainerRemove c ctx (id r)]
                ["stopping container"; "container stopped";
                 "removing container"; "container removed"]).

End lifecycle_paths.

(** ** Histories of a runner

    What a caller can do to a runner: call its setters, [Start] and [Stop], in
    any order.  The errors returned by [Start] and [Stop] are dropped here; a
    panic ends the history. *)

Inductive Method : Type :=
  | CallWithPorts (ps : list Z)
  | CallWithImage (img : string)
  | CallWithName (n : string)
  | CallWithEnvironmentVariable (key val : string)
  | CallWithOptions (o : option ContainerRunnerOpts)
  | CallStart (ctx : Ctx)
  | CallStop (ctx : Ctx).

Definition is_Start (m : Method) : bool :=
  match m with CallStart _ => true | _ => false end.

Definition on_runner {A} (m : M ContainerRunner A) : M State A :=
  λ s, let (o, r') := m s.1 in (o, (r', s.2)).

Definition invoke (u : uuid.UUID) (E : Engine) (m : Method) : M State unit :=
  match m with
  | CallWithPorts ps => on_runner (WithPorts ps)
  | CallWithImage img => store (WithImage img)
  | CallWithName n => store (WithName u n)
  | CallWithEnvironmentVariable key val =>
      store (WithEnvironmentVariable key val)
  | CallWithOptions o => store (WithOptions o)
  | CallStart ctx => Start E ctx ;; mret tt
  | CallStop ctx => Stop E ctx ;; mret tt
  end.

Definition run (u : uuid.UUID) (E : Engine) (ms : list Method)
  : M State unit :=
  for_range ms (invoke u E).

(** The history [h] of engine calls holds a [ContainerCreate] request that
    the engine answered with the identifier [ID] and no error. *)
Definition created (E : Engine) (h : list EngineCall) (ID : string) : Prop :=
  ∃ h1 c ctx cfg hc nm h2,
    h = (h1 ++ CallContainerCreate c ctx cfg hc nm :: h2)%list ∧
    ContainerCreate E h1 c ctx cfg hc nm = (ID, None).

(** The stored identifier is empty or was handed out by the engine. *)
Definition id_accounted (E : Engine) (s : State) : Prop :=
  id s.1 = "" ∨ created E (calls s.2) (id s.1).

(** ** Failures *)



(** ** Engines and inputs used as examples *)

Definition ctx0 : Ctx := CtxHandle 1.
Definition c1 : Client := ClientHandle 1.
Definition u0 : uuid.UUID := vreplicate 16 "a"%char.

(** An engine on which everything succeeds; the container gets the
    identifier "abc". *)
Definition engine_ok : Engine :=
  {| NewEnvClient := λ _, (Some c1, None);
     ImagePull := λ _ _ _ _, None;
     ContainerCreate := λ _ _ _ _ _ _, ("abc", None);
     ContainerStart := λ _ _ _ _, None;
     ContainerStop := λ _ _ _ _ _, None;
     ContainerRemove := λ _ _ _ _, None |}.

(** An engine that creates the container but cannot start it. *)
Definition engine_start_fails : Engine :=
  {| NewEnvClient := λ _, (Some c1, None);
     ImagePull := λ _ _ _ _, None;
     ContainerCreate := λ _ _ _ _ _ _, ("abc", None);
     ContainerStart := λ _ _ _ _, Some "port is already allocated";
     ContainerStop := λ _ _ _ _ _, None;
     ContainerRemove := λ _ _ _ _, None |}.


(** The runner of the README and of [TestNewContainerRunner]. *)
Definition mongo_runner : ContainerRunner :=
  (WithPorts [27017]
     (WithImage "mongo" (WithName u0 "mongo" NewContainerRunner))).2.


(** ** Notions used to state further properties *)

(** [r.WithEnvironmentVariable(k1, v1).WithEnvironmentVariable(k2, v2)...] *)
Definition chain_WithEnvironmentVariable (kvs : list (string * string))
    (r : ContainerRunner) : ContainerRunner :=
  foldl (λ r kv, WithEnvironmentVariable kv.1 kv.2 r) r kvs.

(** What the setters configure: every field but the client and the
    identifier, which the runner manages itself. *)
Definition configuration (r : ContainerRunner)
  : string * string * list string * list string * option (gset string) *
    option (gmap string (list PortBinding)) * option ContainerRunnerOpts :=
  (name r, image r, ports r, env r, exposedPorts r, portBindings r, opts r).

(** The three records of the ports agree: a port is exposed exactly when it is
    in the list, and it is bound exactly then, to the loopback address and
    itself. *)
Definition ports_in_sync (r : ContainerRunner) : Prop :=
  ∃ (s : gset string) (m : gmap string (list PortBinding)),
    exposedPorts r = Some s ∧ portBindings r = Some m ∧
    (∀ k, k ∈ s ↔ k ∈ ports r) ∧
    (∀ k, m !! k = if decide (k ∈ ports r) then Some (loopback k) else None).

(** The most requests a history can send to the engine: four for each
    [Start], two for each [Stop], none for a setter. *)
Definition engine_budget (ms : list Method) : nat :=
  sum_list ((λ m, match m with
                  | CallStart _ => 4
                  | CallStop _ => 2
                  | _ => 0
                  end)%nat <$> ms).

(** * Properties *)

(** ** [strings.Contains] decides the substring relation *)

Section strings_facts.

Lemma HasPrefix_spec (s p : string) :
  strings.HasPrefix s p = true ↔ ∃ post, s = p +:+ post.
Proof.
  revert s. induction p as [|c p IH]; intros s; simpl.
  - split; [intros _; by exists s | done].
  - destruct s as [|d s].
    + split; [done | intros [post H]; discriminate H].
    + case_decide as Hcd.
      * subst d. rewrite IH. split; intros [post H]; exists post.
        -- by rewrite H.
        -- simpl in H. by injection H.
      * split; [done | intros [post H]]. simpl in H. injection H as -> _.
        by destruct Hcd.
Qed.

Lemma Index_unfold (s sub : string) :
  strings.Index s sub =
    if strings.HasPrefix s sub then 0
    else match s with
         | EmptyString => -1
         | String _ s' =>
             if strings.Index s' sub <? 0 then -1
             else strings.Index s' sub + 1
         end.
Proof. by destruct s. Qed.

Lemma Index_lower_bound (s sub : string) : -1 ≤ strings.Index s sub.
Proof.
  induction s as [|a s IH]; rewrite Index_unfold;
    destruct (strings.HasPrefix _ sub); try lia.
  destruct (Z.ltb_spec (strings.Index s sub) 0); lia.
Qed.

Lemma Index_found (s sub : string) :
  0 ≤ strings.Index s sub ↔ is_substring sub s.
Proof.
  induction s as [|a s IH]; rewrite Index_unfold;
    destruct (strings.HasPrefix _ sub) eqn:Hp.
  - apply HasPrefix_spec in Hp as [post Hp].
    split; [intros _; by exists "", post | lia].
  - split; [lia | intros (pre & post & H)].
    destruct pre; [|discriminate H]. simpl in H.
    assert (strings.HasPrefix "" sub = true) as Hp'
      by (apply HasPrefix_spec; eauto).
    congruence.
  - apply HasPrefix_spec in Hp as [post Hp].
    split; [intros _; by exists "", post | lia].
  - destruct (Z.ltb_spec (strings.Index s sub) 0) as [Hlt|Hge].
    + split; [lia | intros (pre & post & H)].
      destruct pre as [|b pre]; simpl in H.
      * assert (strings.HasPrefix (String a s) sub = true) as Hp'
          by (apply HasPrefix_spec; eauto).
        congruence.
      * injection H as _ H.
        assert (0 ≤ strings.Index s sub) by (apply IH; by exists pre, post).
        lia.
    + split; [intros _ | lia].
      destruct (proj1 IH Hge) as (pre & post & ->).
      by exists (String a pre), post.
Qed.

Lemma Contains_spec (s sub : string) :
  strings.Contains s sub = true ↔ is_substring sub s.
Proof. unfold strings.Contains. rewrite Z.leb_le. apply Index_found. Qed.

Lemma substringContainedInSlice_spec (str : string) (substrs : list string) :
  substringContainedInSlice str substrs = true ↔
  ∃ s, s ∈ substrs ∧ is_substring s str.
Proof.
  induction substrs as [|s rest IH]; simpl.
  - split; [done | intros (s & Hs & _); by apply elem_of_nil in Hs].
  - destruct (strings.Contains str s) eqn:Hc.
    + split; [intros _ | done]. exists s. split; [left | by apply Contains_spec].
    + rewrite IH. split.
      * intros (s' & Hin & Hsub). exists s'. split; [by right | done].
      * intros (s' & Hin & Hsub). apply elem_of_cons in Hin as [->|Hin].
        -- apply Contains_spec in Hsub. congruence.
        -- by exists s'.
Qed.

Lemma substringContainedInSlice_false (str : string) (substrs : list string) :
  substringContainedInSlice str substrs = false ↔
  ∀ s, s ∈ substrs → ¬ is_substring s str.
Proof.
  rewrite <- not_true_iff_false, substringContainedInSlice_spec.
  split.
  - intros Hn s Hin Hsub. apply Hn. by exists s.
  - intros Hall (s & Hin & Hsub). by apply (Hall s).
Qed.

End strings_facts.

(** The two inputs of the repository's table test. *)
Example TestSubStringInStrings_no_docker_hub :
  substringContainedInSlice "mongo" RegistryExtensionOptions = false.
Proof. reflexivity. Qed.

Example TestSubStringInStrings_docker_hub :
  substringContainedInSlice "docker.io/library/mongo" RegistryExtensionOptions
  = true.
Proof. reflexivity. Qed.

(** The scenario of [TestNewContainerRunner] and of the README, on an engine
    on which every request succeeds: [Start] stores the identifier, [Stop]
    stops and removes the container. *)
Example TestNewContainerRunner :
  (image mongo_runner, name mongo_runner, ports mongo_runner)
    = ("docker.io/library/mongo", "mongo", ["27017"]) ∧
  (Start engine_ok ctx0 (mongo_runner, fresh_world)).1 = Returned None ∧
  id (Start engine_ok ctx0 (mongo_runner, fresh_world)).2.1 = "abc" ∧
  (Stop engine_ok ctx0
     (Start engine_ok ctx0 (mongo_runner, fresh_world)).2).1
    = Returned None ∧
  calls (Stop engine_ok ctx0
           (Start engine_ok ctx0 (mongo_runner, fresh_world)).2).2.2
    = [CallNewEnvClient;
       CallImagePull c1 ctx0 "docker.io/library/mongo";
       create_call c1 ctx0 mongo_runner;
       CallContainerStart c1 ctx0 "abc";
       CallContainerStop c1 ctx0 "abc" time_Minute;
       CallContainerRemove c1 ctx0 "abc"].
Proof. by vm_compute. Qed.

(** ** The image heuristic *)

Lemma WithImage_image (img : string) (r : ContainerRunner) :
  image (WithImage img r) =
    if substringContainedInSlice img RegistryExtensionOptions then img
    else "docker.io/library/" +:+ img.
Proof.
  unfold WithImage.
  by destruct (substringContainedInSlice img RegistryExtensionOptions).
Qed.

Lemma default_registry_is_recognised (img : string) :
  substringContainedInSlice ("docker.io/library/" +:+ img)
                            RegistryExtensionOptions = true.
Proof.
  apply substringContainedInSlice_spec. exists ".io". split.
  - unfold RegistryExtensionOptions. set_solver.
  - by exists "docker", ("/library/" +:+ img).
Qed.

(** C3. An image name in which none of ".com", ".io", ".org", ".net" occurs
    is stored as "docker.io/library/<name>"; a name in which at least one of
    them occurs is stored unchanged.  No other field of the runner is
    touched. *)
Theorem WithImage_registry_heuristic (img : string) (r : ContainerRunner) :
  ((∀ ext, ext ∈ [".com"; ".io"; ".org"; ".net"] → ¬ is_substring ext img) →
   WithImage img r = set_image ("docker.io/library/" +:+ img) r) ∧
  ((∃ ext, ext ∈ [".com"; ".io"; ".org"; ".net"] ∧ is_substring ext img) →
   WithImage img r = set_image img r).
Proof.
  split.
  - intros Hnone. apply substringContainedInSlice_false in Hnone.
    unfold WithImage, RegistryExtensionOptions. by rewrite Hnone.
  - intros Hsome. apply substringContainedInSlice_spec in Hsome.
    unfold WithImage, RegistryExtensionOptions. by rewrite Hsome.
Qed.

(** C9. Normalising an image name twice gives what normalising it once
    gives: the rewritten form contains ".io" and so passes through. *)
Theorem WithImage_idempotent (s : string) (r r' : ContainerRunner) :
  substringContainedInSlice ("docker.io/library/" +:+ s)
                            RegistryExtensionOptions = true ∧
  image (WithImage (image (WithImage s r)) r') = image (WithImage s r) ∧
  WithImage (image (WithImage s r)) (WithImage s r) = WithImage s r.
Proof.
  split; [apply default_registry_is_recognised|].
  assert (substringContainedInSlice (image (WithImage s r))
                                    RegistryExtensionOptions = true) as Hrec.
  { rewrite WithImage_image.
    destruct (substringContainedInSlice s RegistryExtensionOptions) eqn:Hs;
      [done | apply default_registry_is_recognised]. }
  split.
  - by rewrite (WithImage_image (image _)), Hrec.
  - unfold WithImage at 1. rewrite Hrec. simpl.
    by destruct (WithImage s r).
Qed.

Lemma WithImage_registry_heuristic_witness :
  WithImage "mongo" NewContainerRunner
    = set_image "docker.io/library/mongo" NewContainerRunner ∧
  WithImage "quay.io/mongo" NewContainerRunner
    = set_image "quay.io/mongo" NewContainerRunner.
Proof.
  split.
  - apply (proj1 (WithImage_registry_heuristic "mongo" NewContainerRunner)).
    by apply substringContainedInSlice_false.
  - apply (proj2 (WithImage_registry_heuristic "quay.io/mongo"
                                               NewContainerRunner)).
    exists ".io". split; [set_solver | by exists "quay", "/mongo"].
Defined.

(** ** The container name *)

Lemma uuid_String_length (u : uuid.UUID) :
  String.length (uuid.String u) = 36%nat.
Proof. unfold uuid.UUID in u. inv_vec u. intros. reflexivity. Qed.

Lemma DefaultContainerName_nonempty (u : uuid.UUID) :
  DefaultContainerName u ≠ "".
Proof.
  intros H. pose proof (uuid_String_length u) as Hlen.
  unfold DefaultContainerName in H. rewrite H in Hlen. discriminate Hlen.
Qed.

(** C7. [WithName("")] stores the default name, which is not empty and is
    the one value fixed when the package was initialised, whatever runner
    asks for it; [WithName(x)] with [x] not empty stores [x]. *)
Theorem WithName_default_and_explicit (u : uuid.UUID) (x : string)
    (r1 r2 : ContainerRunner) :
  name (WithName u "" r1) = DefaultContainerName u ∧
  name (WithName u "" r2) = name (WithName u "" r1) ∧
  name (WithName u "" r1) ≠ "" ∧
  (x ≠ "" → name (WithName u x r1) = x).
Proof.
  repeat split; try done.
  - apply DefaultContainerName_nonempty.
  - intros Hx. unfold WithName. case_decide as Hlen; [|done].
    by destruct x.
Qed.

Lemma WithName_default_and_explicit_witness :
  name (WithName (vreplicate 16 "a"%char) "mongo" NewContainerRunner)
  = "mongo".
Proof.
  apply (WithName_default_and_explicit (vreplicate 16 "a"%char) "mongo"
           NewContainerRunner NewContainerRunner).
  discriminate.
Defined.

(** ** Ports *)

Section ports_facts.

Local Instance Itoa_inj : Inj (=) (=) strconv.Itoa.
Proof. unfold strconv.Itoa. apply _. Qed.

Lemma for_range_app {St A} (xs ys : list A) (body : A → M St unit) (s : St) :
  for_range (xs ++ ys) body s = (for_range xs body ;; for_range ys body) s.
Proof.
  revert s. induction xs as [|x xs IH]; intros s; [done|].
  simpl. unfold mbind, M_bind in *.
  destruct (body x s) as [[[]|p] s']; [apply IH | done].
Qed.

Lemma chain_WithPorts_concat (pss : list (list Z)) (r : ContainerRunner) :
  chain_WithPorts pss r = WithPorts (concat pss) r.
Proof.
  unfold chain_WithPorts, WithPorts. revert r.
  induction pss as [|ps pss IH]; intros r; [done|].
  simpl. rewrite for_range_app. unfold mbind, M_bind.
  destruct (for_range ps WithPorts_body r) as [[[]|p] r']; [apply IH | done].
Qed.

Lemma WithPorts_spec (ps : list Z) (r : ContainerRunner)
    (s : gset string) (m : gmap string (list PortBinding)) :
  exposedPorts r = Some s → portBindings r = Some m →
  WithPorts ps r =
    (Returned tt,
     {| name := name r; image := image r;
        ports := ports r ++ (strconv.Itoa <$> ps); env := env r;
        exposedPorts := Some (expose_all ps s);
        portBindings := Some (bind_all ps m);
        opts := opts r; client := client r; id := id r |}).
Proof.
  unfold WithPorts. revert r s m.
  induction ps as [|p ps IH]; intros r s m Hs Hm.
  - simpl. unfold mret, M_ret. rewrite app_nil_r.
    destruct r; simpl in *; by subst.
  - cbn [for_range]. unfold mbind, M_bind at 1.
    assert (WithPorts_body p r =
      (Returned tt,
       set_portBindings
         (Some (<[ strconv.Itoa p := loopback (strconv.Itoa p) ]> m))
         (set_exposedPorts (Some ({[ strconv.Itoa p ]} ∪ s))
            (set_ports (ports r ++ [strconv.Itoa p]) r)))) as ->.
    { unfold WithPorts_body, mbind, M_bind, modify, get. simpl.
      rewrite Hs. simpl. by rewrite Hm. }
    erewrite IH; [|reflexivity..]. simpl.
    by rewrite <- app_assoc.
Qed.

Lemma WithPorts_nil_map_panics (p : Z) (ps : list Z) (r : ContainerRunner) :
  exposedPorts r = None →
  WithPorts (p :: ps) r =
    (Panicked NilMapAssignment, set_ports (ports r ++ [strconv.Itoa p]) r).
Proof.
  intros Hs. unfold WithPorts. cbn [for_range].
  unfold mbind, M_bind at 1.
  unfold WithPorts_body, mbind, M_bind, modify, get. simpl. by rewrite Hs.
Qed.

Lemma elem_of_expose_all (ps : list Z) (s : gset string) (P : string) :
  P ∈ expose_all ps s ↔ P ∈ s ∨ ∃ p, p ∈ ps ∧ P = strconv.Itoa p.
Proof.
  unfold expose_all. revert s. induction ps as [|p ps IH]; intros s; simpl.
  - split; [by left | intros [?|(p & Hp & _)]; [done | by inversion Hp]].
  - rewrite IH, elem_of_union, elem_of_singleton. split.
    + intros [[->|?]|(q & Hq & ->)]; eauto.
      * right. exists p. split; [left | done].
      * right. exists q. split; [by right | done].
    + intros [?|(q & Hq & ->)]; [by left; right|].
      apply elem_of_cons in Hq as [->|Hq]; [by left; left|].
      right. by exists q.
Qed.

Lemma lookup_bind_all (ps : list Z) (m : gmap string (list PortBinding))
    (k : string) :
  bind_all ps m !! k =
    if decide (k ∈ strconv.Itoa <$> ps) then Some (loopback k) else m !! k.
Proof.
  unfold bind_all. revert m. induction ps as [|p ps IH]; intros m.
  - done.
  - cbn [foldl]. rewrite IH, fmap_cons.
    case_decide as H1; case_decide as H2; try done.
    + destruct H2. by right.
    + apply elem_of_cons in H2 as [->|H2]; [|done].
      by rewrite lookup_insert_eq.
    + rewrite lookup_insert_ne; [done|]. intros <-. apply H2. left.
Qed.

Lemma size_expose_all (ps : list Z) :
  size (expose_all ps ∅) = length (remove_dups ps).
Proof.
  assert (expose_all ps ∅ = list_to_set (strconv.Itoa <$> remove_dups ps))
    as ->.
  { apply set_eq. intros P.
    rewrite elem_of_expose_all, elem_of_list_to_set, list_elem_of_fmap.
    split.
    - intros [H|(p & Hp & ->)]; [set_solver|].
      exists p. by rewrite elem_of_remove_dups.
    - intros (p & -> & Hp). right. exists p.
      by rewrite elem_of_remove_dups in Hp. }
  rewrite size_list_to_set, length_fmap; [done|].
  apply NoDup_fmap_2; [apply _ | apply NoDup_remove_dups].
Qed.

End ports_facts.

(** C4. After any sequence of [WithPorts] calls on a runner whose two port
    maps started out empty (as [NewContainerRunner] makes them), the exposed
    ports and the port bindings have exactly one entry for each distinct
    port passed in any of the calls, and the binding of a port is the single
    host binding with address 127.0.0.1 and the port itself as host port. *)
Theorem WithPorts_one_entry_per_port (pss : list (list Z))
    (r : ContainerRunner) :
  exposedPorts r = Some ∅ → portBindings r = Some ∅ →
  ∃ r' s m,
    chain_WithPorts pss r = (Returned tt, r') ∧
    exposedPorts r' = Some s ∧ portBindings r' = Some m ∧
    (∀ P, P ∈ s ↔ ∃ p, p ∈ concat pss ∧ P = strconv.Itoa p) ∧
    (∀ P, is_Some (m !! P) ↔ ∃ p, p ∈ concat pss ∧ P = strconv.Itoa p) ∧
    size s = length (remove_dups (concat pss)) ∧
    size m = length (remove_dups (concat pss)) ∧
    (∀ p, p ∈ concat pss →
          m !! strconv.Itoa p =
            Some [ {| HostIP := "127.0.0.1"; HostPort := strconv.Itoa p |} ]).
Proof.
  intros Hs Hm. rewrite chain_WithPorts_concat.
  rewrite (WithPorts_spec _ _ _ _ Hs Hm).
  set (ps := concat pss).
  assert (∀ P, P ∈ expose_all ps ∅ ↔ ∃ p, p ∈ ps ∧ P = strconv.Itoa p)
    as Hexp.
  { intros P. rewrite elem_of_expose_all.
    split; [intros [Hin|Hin]; [by apply not_elem_of_empty in Hin | done]
           | by right]. }
  assert (∀ P, is_Some (bind_all ps ∅ !! P) ↔
               ∃ p, p ∈ ps ∧ P = strconv.Itoa p) as Hbind.
  { intros P. rewrite lookup_bind_all, lookup_empty.
    case_decide as Hin.
    - apply list_elem_of_fmap in Hin as (p & -> & Hp).
      split; [intros _; by exists p | by eexists].
    - split; [by intros [? ?]|]. intros (p & Hp & ->).
      destruct Hin. apply list_elem_of_fmap. by exists p. }
  eexists _, _, _. split; [reflexivity|]. simpl.
  split; [reflexivity|]. split; [reflexivity|].
  split; [exact Hexp|]. split; [exact Hbind|].
  split; [apply size_expose_all|]. split.
  - rewrite <- size_dom, <- (size_expose_all ps). f_equal.
    apply set_eq. intros P. by rewrite elem_of_dom, Hbind, Hexp.
  - intros p Hp. rewrite lookup_bind_all.
    rewrite decide_True; [done|]. apply list_elem_of_fmap. by exists p.
Qed.

Lemma WithPorts_one_entry_per_port_witness :
  ∃ r' s m,
    chain_WithPorts [[27017; 8080]; [27017]] NewContainerRunner
      = (Returned tt, r') ∧
    exposedPorts r' = Some s ∧ portBindings r' = Some m ∧
    size s = 2%nat ∧ size m = 2%nat ∧
    m !! "27017" = Some [ {| HostIP := "127.0.0.1"; HostPort := "27017" |} ].
Proof.
  destruct (WithPorts_one_entry_per_port [[27017; 8080]; [27017]]
              NewContainerRunner eq_refl eq_refl)
    as (r' & s & m & Hrun & Hs & Hm & _ & _ & Hsize_s & Hsize_m & Hbind).
  exists r', s, m. repeat split; try done.
  apply (Hbind 27017). set_solver.
Defined.

(** ** The lifecycle, case by case *)

Ltac unfold_lifecycle :=
  unfold Start, Stop, log_Infoln, load, store, modify,
    client_NewEnvClient, client_ImagePull, client_ContainerCreate,
    client_ContainerStart, client_ContainerStop, client_ContainerRemove,
    through, request, raise, engine_error;
  unfold mbind, M_bind, mret, M_ret; simpl.

Ltac normalise_world :=
  unfold extend; simpl; rewrite <- ?app_assoc, ?app_nil_r; simpl.

Section lifecycle_facts.

Variable E : Engine.
Variable ctx : Ctx.

Lemma length_zero_iff_empty (s : string) :
  String.length s = 0%nat ↔ s = "".
Proof. by destruct s. Qed.

(** Each listed path is what [Start] computes under its premises. *)
Lemma Start_run_sound (r : ContainerRunner) (w : World)
    (o : outcome (option error)) (r' : ContainerRunner) (w' : World) :
  Start_run E ctx r w o r' w' → Start E ctx (r, w) = (o, (r', w')).
Proof.
  destruct 1; unfold create_answer, create_call in *; unfold_lifecycle;
    repeat match goal with
           | H : _ = _ |- _ => rewrite <- ?app_assoc; simpl; rewrite H; simpl
           end;
    by normalise_world.
Qed.

(** The premises of the paths cover all answers the engine can give. *)
Lemma Start_run_total (r : ContainerRunner) (w : World) :
  ∃ o r' w', Start_run E ctx r w o r' w'.
Proof.
  destruct (NewEnvClient E (calls w)) as [c [msg1|]] eqn:H1;
    [by eauto using Start_client_fails|].
  destruct c as [c|]; [|by eauto using Start_client_nil].
  destruct (ImagePull E (calls w ++ [CallNewEnvClient])%list c ctx (image r))
    as [msg2|] eqn:H2; [by eauto using Start_pull_fails|].
  destruct (create_answer E
              (calls w ++ [CallNewEnvClient; CallImagePull c ctx (image r)])%list
              c ctx r) as [ID [msg3|]] eqn:H3;
    [by eauto using Start_create_fails|].
  destruct (ContainerStart E
              (calls w ++ [CallNewEnvClient; CallImagePull c ctx (image r);
                           create_call c ctx r])%list c ctx ID)
    as [msg4|] eqn:H4;
    eauto using Start_start_fails, Start_succeeds.
Qed.

(** Every run of [Start] is one of the listed paths. *)
Lemma Start_cases (r : ContainerRunner) (w : World)
    (o : outcome (option error)) (r' : ContainerRunner) (w' : World) :
  Start E ctx (r, w) = (o, (r', w')) → Start_run E ctx r w o r' w'.
Proof.
  intros Hrun. destruct (Start_run_total r w) as (o1 & r1 & w1 & Hpath).
  pose proof (Start_run_sound _ _ _ _ _ Hpath) as Heq.
  rewrite Hrun in Heq. by injection Heq as -> -> ->.
Qed.

Lemma Stop_run_sound (r : ContainerRunner) (w : World)
    (o : outcome (option error)) (r' : ContainerRunner) (w' : World) :
  Stop_run E ctx r w o r' w' → Stop E ctx (r, w) = (o, (r', w')).
Proof.
  destruct 1; unfold_lifecycle;
    repeat match goal with
           | H : id r = "" |- _ => rewrite H; simpl; clear H
           | H : id r ≠ "" |- _ =>
               rewrite decide_False by (by rewrite length_zero_iff_empty);
               clear H
           | H : _ = _ |- _ => rewrite <- ?app_assoc; simpl; rewrite H; simpl
           end;
    by normalise_world.
Qed.

Lemma Stop_run_total (r : ContainerRunner) (w : World) :
  ∃ o r' w', Stop_run E ctx r w o r' w'.
Proof.
  destruct (decide (id r = "")) as [Hid|Hid]; [by eauto using Stop_no_id|].
  destruct (client r) as [c|] eqn:Hc; [|by eauto using Stop_client_nil].
  destruct (ContainerStop E (calls w) c ctx (id r) time_Minute)
    as [msg1|] eqn:H1; [by eauto using Stop_stop_fails|].
  destruct (opts r) as [o|] eqn:Ho; [|by eauto using Stop_opts_nil].
  destruct (RemoveOnFinalization o) eqn:Hrm;
    [|by eauto using Stop_keeps_container].
  destruct (ContainerRemove E
              (calls w ++ [CallContainerStop c ctx (id r) time_Minute])%list
              c ctx (id r)) as [msg2|] eqn:H2;
    eauto using Stop_remove_fails, Stop_removes_container.
Qed.

Lemma Stop_cases (r : ContainerRunner) (w : World)
    (o : outcome (option error)) (r' : ContainerRunner) (w' : World) :
  Stop E ctx (r, w) = (o, (r', w')) → Stop_run E ctx r w o r' w'.
Proof.
  intros Hrun. destruct (Stop_run_total r w) as (o1 & r1 & w1 & Hpath).
  pose proof (Stop_run_sound _ _ _ _ _ Hpath) as Heq.
  rewrite Hrun in Heq. by injection Heq as -> -> ->.
Qed.

End lifecycle_facts.

(** ** Histories *)

Section history_facts.

Variable u : uuid.UUID.
Variable E : Engine.

Lemma created_extend (h h' : list EngineCall) (ID : string) :
  created E h ID → created E (h ++ h') ID.
Proof.
  intros (h1 & c & ctx & cfg & hc & nm & h2 & -> & Hans).
  exists h1, c, ctx, cfg, hc, nm, (h2 ++ h')%list.
  split; [|done]. by rewrite <- app_assoc.
Qed.

Lemma for_range_preserves {St A B} (f : St → B) (body : A → M St unit) :
  (∀ x s, f (body x s).2 = f s) →
  ∀ xs s, f (for_range xs body s).2 = f s.
Proof.
  intros Hbody xs. induction xs as [|x xs IH]; intros s; [done|].
  cbn [for_range]. unfold mbind, M_bind.
  specialize (Hbody x s).
  destruct (body x s) as [[[]|p] s1]; simpl in *; [|done].
  by rewrite IH.
Qed.

Lemma WithPorts_keeps_rest (ps : list Z) (r : ContainerRunner) :
  id (WithPorts ps r).2 = id r ∧ client (WithPorts ps r).2 = client r ∧
  opts (WithPorts ps r).2 = opts r.
Proof.
  assert (∀ p r, (λ r, (id r, client r, opts r)) (WithPorts_body p r).2
                 = (id r, client r, opts r)) as Hbody.
  { intros p r0.
    unfold WithPorts_body, mbind, M_bind, modify, get, raise. simpl.
    destruct (exposedPorts r0); simpl; [|done].
    by destruct (portBindings r0). }
  pose proof (for_range_preserves _ _ Hbody ps r) as Hall.
  simpl in Hall. unfold WithPorts. by injection Hall as -> -> ->.
Qed.

Lemma Start_run_id ctx r w o r' w' :
  Start_run E ctx r w o r' w' →
  id r' = id r ∨ created E (calls w') (id r').
Proof.
  destruct 1; try by left.
  all: right; unfold create_answer, create_call, extend in *; simpl.
  all: eexists (calls w ++ [_; _])%list, _, _, _, _, _, [_].
  all: split; [by rewrite <- app_assoc | eassumption].
Qed.

Lemma Stop_run_frame ctx r w o r' w' :
  Stop_run E ctx r w o r' w' → r' = r ∧ ∃ cs, calls w' = (calls w ++ cs)%list.
Proof. destruct 1; split; try done; by eexists. Qed.

Lemma Start_run_frame ctx r w o r' w' :
  Start_run E ctx r w o r' w' → ∃ cs, calls w' = (calls w ++ cs)%list.
Proof. destruct 1; by eexists. Qed.

Lemma invoke_id_accounted (m : Method) (s : State) :
  id_accounted E s → id_accounted E (invoke u E m s).2.
Proof.
  destruct s as [r w]. unfold id_accounted. intros Hinv.
  destruct m as [ps|img|n|key val|o|ctx|ctx]; simpl.
  - unfold on_runner. simpl. destruct (WithPorts ps r) as [o1 r1] eqn:Hp.
    simpl. pose proof (WithPorts_keeps_rest ps r) as (Hid & _).
    rewrite Hp in Hid. simpl in Hid. by rewrite Hid.
  - unfold WithImage.
    by destruct (substringContainedInSlice img RegistryExtensionOptions).
  - unfold WithName. by case_decide.
  - done.
  - done.
  - unfold mbind, M_bind, mret, M_ret.
    destruct (Start E ctx (r, w)) as [o1 [r1 w1]] eqn:Hrun.
    apply Start_cases in Hrun.
    assert (id_accounted E (r1, w1)) as Hinv1.
    { destruct (Start_run_id _ _ _ _ _ _ Hrun) as [Hid|Hcr]; [|by right].
      destruct (Start_run_frame _ _ _ _ _ _ Hrun) as [cs Hcs].
      unfold id_accounted. simpl. rewrite Hid, Hcs.
      destruct Hinv as [?|?]; [by left | right; by apply created_extend]. }
    by destruct o1 as [?|?].
  - unfold mbind, M_bind, mret, M_ret.
    destruct (Stop E ctx (r, w)) as [o1 [r1 w1]] eqn:Hrun.
    apply Stop_cases in Hrun.
    destruct (Stop_run_frame _ _ _ _ _ _ Hrun) as [-> [cs Hcs]].
    assert (id_accounted E (r, w1)) as Hinv1.
    { unfold id_accounted. simpl. rewrite Hcs.
      destruct Hinv as [?|?]; [by left | right; by apply created_extend]. }
    by destruct o1 as [?|?].
Qed.

Lemma run_id_accounted (ms : list Method) (s : State) :
  id_accounted E s → id_accounted E (run u E ms s).2.
Proof.
  unfold run. revert s. induction ms as [|m ms IH]; intros s Hinv; [done|].
  cbn [for_range]. unfold mbind, M_bind at 1.
  pose proof (invoke_id_accounted m s Hinv) as Hstep.
  destruct (invoke u E m s) as [[[]|p] s1]; simpl in *; [by apply IH | done].
Qed.

(** Without [Start], no history changes the identifier. *)
Lemma run_setters_and_Stop_keep_id (ms : list Method) (s : State) :
  forallb (λ m, negb (is_Start m)) ms = true →
  id (run u E ms s).2.1 = id s.1.
Proof.
  unfold run. revert s. induction ms as [|m ms IH]; intros s Hms; [done|].
  simpl in Hms. apply andb_true_iff in Hms as [Hm Hms].
  cbn [for_range]. unfold mbind, M_bind at 1.
  assert (id (invoke u E m s).2.1 = id s.1) as Hstep.
  { destruct s as [r w].
    destruct m as [ps|img|n|key val|o|ctx|ctx]; simpl; try done.
    - unfold on_runner. simpl. destruct (WithPorts ps r) as [o1 r1] eqn:Hp.
      simpl. pose proof (WithPorts_keeps_rest ps r) as (Hid & _).
      by rewrite Hp in Hid.
    - unfold WithImage.
      by destruct (substringContainedInSlice img RegistryExtensionOptions).
    - unfold WithName. by case_decide.
    - unfold mbind, M_bind, mret, M_ret.
      destruct (Stop E ctx (r, w)) as [o1 [r1 w1]] eqn:Hrun.
      apply Stop_cases in Hrun.
      destruct (Stop_run_frame _ _ _ _ _ _ Hrun) as [-> _].
      by destruct o1. }
  destruct (invoke u E m s) as [[[]|p] s1]; simpl in *; [|done].
  by rewrite IH.
Qed.

End history_facts.

(** ** The stored identifier *)

(** C1, as stated, fails: the engine creates the container and cannot start
    it; [Start] returns an error and the identifier is stored all the
    same. *)
Lemma Start_error_with_id_stored :
  (Start engine_start_fails ctx0 (mongo_runner, fresh_world)).1
    = Returned (Some (Errorf_w "starting container"
                               (EngineError "port is already allocated"))) ∧
  id (Start engine_start_fails ctx0 (mongo_runner, fresh_world)).2.1 = "abc" ∧
  id (Start engine_start_fails ctx0 (mongo_runner, fresh_world)).2.1 ≠ "".
Proof. by vm_compute. Qed.

(** C1, amended.  The identifier of a new runner is empty, and no history
    without [Start] changes that; after any history the identifier is empty
    or is one the engine handed out for a container it created.  [Start]
    stores the identifier as soon as the container is created: it is stored
    when [Start] succeeds and also when only the last step, starting the
    container, fails; a [Start] that fails before leaves the identifier as
    it was. *)
Theorem id_set_by_container_creation (u : uuid.UUID) (E : Engine)
    (ms : list Method) (ctx : Ctx) (r r' : ContainerRunner) (w w' : World)
    (o : outcome (option error)) :
  Start E ctx (r, w) = (o, (r', w')) →
  id NewContainerRunner = "" ∧
  (forallb (λ m, negb (is_Start m)) ms = true →
   id (run u E ms (NewContainerRunner, fresh_world)).2.1 = "") ∧
  id_accounted E (run u E ms (NewContainerRunner, fresh_world)).2 ∧
  (o = Returned None ∨
   (∃ e, o = Returned (Some (Errorf_w "starting container" e))) →
   created E (calls w') (id r')) ∧
  (o ≠ Returned None →
   (∀ e, o ≠ Returned (Some (Errorf_w "starting container" e))) →
   id r' = id r).
Proof.
  intros Hrun. apply Start_cases in Hrun.
  split; [done|]. split.
  { intros Hms. by rewrite run_setters_and_Stop_keep_id. }
  split; [apply run_id_accounted; by left|].
  split.
  - intros Ho.
    destruct Hrun; try (destruct Ho as [Ho|[e Ho]]; discriminate Ho).
    all: unfold create_answer, create_call, extend in *; simpl.
    all: eexists (calls w ++ [_; _])%list, _, _, _, _, _, [_].
    all: split; [by rewrite <- app_assoc | eassumption].
  - intros Hfail Hstage. destruct Hrun; try done.
    by destruct (Hstage (EngineError msg)).
Qed.

Lemma id_set_by_container_creation_witness :
  created engine_ok
    (calls (Start engine_ok ctx0 (mongo_runner, fresh_world)).2.2)
    (id (Start engine_ok ctx0 (mongo_runner, fresh_world)).2.1).
Proof.
  refine (proj1 (proj2 (proj2 (proj2
    (id_set_by_container_creation u0 engine_ok [] ctx0
       mongo_runner (Start engine_ok ctx0 (mongo_runner, fresh_world)).2.1
       fresh_world (Start engine_ok ctx0 (mongo_runner, fresh_world)).2.2
       (Returned None) _)))) _).
  - by vm_compute.
  - by left.
Defined.

(** ** [Stop] without an identifier *)

Lemma ErrNoContainerId_not_in_engine_errors (stage msg : string) :
  errors_Is (Errorf_w stage (EngineError msg)) ErrNoContainerId = false.
Proof. unfold Errorf_w. simpl. by repeat case_decide. Qed.

(** C2, as stated, fails: no [Start] call has succeeded on the runner below
    (the only one returned an error), yet [Stop] reaches the engine twice and
    returns nil, not the sentinel. *)
Lemma Stop_after_failed_Start_reaches_engine :
  (Start engine_start_fails ctx0 (mongo_runner, fresh_world)).1
    = Returned (Some (Errorf_w "starting container"
                               (EngineError "port is already allocated"))) ∧
  (Stop engine_start_fails ctx0
     (Start engine_start_fails ctx0 (mongo_runner, fresh_world)).2).1
    = Returned None ∧
  (Stop engine_start_fails ctx0
     (Start engine_start_fails ctx0 (mongo_runner, fresh_world)).2).1
    ≠ Returned (Some ErrNoContainerId) ∧
  calls (Stop engine_start_fails ctx0
           (Start engine_start_fails ctx0 (mongo_runner, fresh_world)).2).2.2
    = (calls (Start engine_start_fails ctx0 (mongo_runner, fresh_world)).2.2
       ++ [CallContainerStop c1 ctx0 "abc" time_Minute;
           CallContainerRemove c1 ctx0 "abc"])%list.
Proof. by vm_compute. Qed.

(** C2, amended.  On a runner whose stored identifier is empty, [Stop]
    returns the sentinel [ErrNoContainerId] and makes no engine call (it only
    logs a line); the runner is left as it was.  The sentinel is recognised
    by identity: it is not on the chain of any wrapped engine error, not even
    of one with the same text.  The identifier is empty, in particular,
    after every history in which the engine never created a container. *)
Theorem Stop_without_id (u : uuid.UUID) (E : Engine) (ms : list Method)
    (ctx : Ctx) (r : ContainerRunner) (w : World) :
  id r = "" →
  Stop E ctx (r, w)
    = (Returned (Some ErrNoContainerId),
       (r, {| calls := calls w;
              logged := logged w ++ ["stopping container"] |})) ∧
  errors_Is ErrNoContainerId ErrNoContainerId = true ∧
  (∀ stage msg,
     errors_Is (Errorf_w stage (EngineError msg)) ErrNoContainerId = false) ∧
  EngineError (Error ErrNoContainerId) ≠ ErrNoContainerId ∧
  ((∀ ID, ¬ created E (calls (run u E ms (NewContainerRunner,
                                           fresh_world)).2.2) ID) →
   (Stop E ctx (run u E ms (NewContainerRunner, fresh_world)).2).1
     = Returned (Some ErrNoContainerId) ∧
   calls (Stop E ctx (run u E ms (NewContainerRunner, fresh_world)).2).2.2
     = calls (run u E ms (NewContainerRunner, fresh_world)).2.2).
Proof.
  intros Hid.
  assert (∀ r w, id r = "" →
            Stop E ctx (r, w)
            = (Returned (Some ErrNoContainerId),
               (r, {| calls := calls w;
                      logged := logged w ++ ["stopping container"] |})))
    as Hstop.
  { intros r0 w0 Hid0.
    rewrite (Stop_run_sound E ctx _ _ _ _ _ (Stop_no_id E ctx r0 w0 Hid0)).
    unfold extend. by rewrite app_nil_r. }
  split; [by apply Hstop|]. split; [done|].
  split; [apply ErrNoContainerId_not_in_engine_errors|]. split; [done|].
  intros Hnone.
  pose proof (run_id_accounted u E ms (NewContainerRunner, fresh_world)
                (or_introl eq_refl)) as Hacc.
  destruct (run u E ms (NewContainerRunner, fresh_world)) as [o1 [r1 w1]].
  simpl in *. destruct Hacc as [Hid1|Hcr]; [|by destruct (Hnone _ Hcr)].
  by rewrite (Hstop r1 w1 Hid1).
Qed.

Lemma Stop_without_id_witness :
  Stop engine_ok ctx0 (mongo_runner, fresh_world)
    = (Returned (Some ErrNoContainerId),
       (mongo_runner,
        {| calls := []; logged := ["stopping container"] |})).
Proof.
  apply (Stop_without_id u0 engine_ok [] ctx0 mongo_runner fresh_world).
  reflexivity.
Defined.

(** ** Stopping and removing *)

(** C5. A new runner has remove-on-stop enabled.  When [Stop] succeeds on a
    runner with a stored identifier, the engine received the stop request
    and, if the options ask for removal as the default ones do, the remove
    request after it: two calls; with removal disabled, the stop request
    only. *)
Theorem Stop_stops_then_removes (E : Engine) (ctx : Ctx)
    (r r' : ContainerRunner) (w w' : World) (o : ContainerRunnerOpts) :
  id r ≠ "" → opts r = Some o →
  Stop E ctx (r, w) = (Returned None, (r', w')) →
  opts NewContainerRunner = Some {| RemoveOnFinalization := true |} ∧
  ∃ c, client r = Some c ∧
       calls w' =
         (calls w ++
          if RemoveOnFinalization o
          then [CallContainerStop c ctx (id r) time_Minute;
                CallContainerRemove c ctx (id r)]
          else [CallContainerStop c ctx (id r) time_Minute])%list.
Proof.
  intros Hid Ho Hrun. split; [done|].
  apply Stop_cases in Hrun.
  inversion Hrun as [ | | | |c o' ? Hc ? Ho' Hrm| |c o' ? Hc ? Ho' Hrm ?];
    subst; exists c; (split; [done|]);
    rewrite Ho in Ho'; injection Ho' as <-; by rewrite Hrm.
Qed.

Lemma Stop_stops_then_removes_witness :
  (∃ c, client (set_id "abc" (set_client (Some c1) mongo_runner)) = Some c ∧
        calls (Stop engine_ok ctx0
                 (set_id "abc" (set_client (Some c1) mongo_runner),
                  fresh_world)).2.2
        = [CallContainerStop c ctx0 "abc" time_Minute;
           CallContainerRemove c ctx0 "abc"]) ∧
  (∃ c, client (WithOptions (Some {| RemoveOnFinalization := false |})
                  (set_id "abc" (set_client (Some c1) mongo_runner)))
        = Some c ∧
        calls (Stop engine_ok ctx0
                 (WithOptions (Some {| RemoveOnFinalization := false |})
                    (set_id "abc" (set_client (Some c1) mongo_runner)),
                  fresh_world)).2.2
        = [CallContainerStop c ctx0 "abc" time_Minute]).
Proof.
  split.
  - refine (proj2 (Stop_stops_then_removes engine_ok ctx0
              (set_id "abc" (set_client (Some c1) mongo_runner)) _
              fresh_world _ {| RemoveOnFinalization := true |} _ _ _)).
    + discriminate.
    + reflexivity.
    + by vm_compute.
  - refine (proj2 (Stop_stops_then_removes engine_ok ctx0
              (WithOptions (Some {| RemoveOnFinalization := false |})
                 (set_id "abc" (set_client (Some c1) mongo_runner))) _
              fresh_world _ {| RemoveOnFinalization := false |} _ _ _)).
    + discriminate.
    + reflexivity.
    + by vm_compute.
Defined.

(** C8. [Stop] never resets the identifier: whatever its outcome, the runner
    is as before.  So a second [Stop] does not return the missing-identifier
    error: it asks the engine to stop the container again and, when that
    succeeds and the options ask for removal, to remove it again. *)
Theorem Stop_keeps_id (E : Engine) (ctx ctx2 : Ctx) (r r' r2 : ContainerRunner)
    (w w' w2 : World) (o o2 : outcome (option error)) :
  id r ≠ "" →
  Stop E ctx (r, w) = (o, (r', w')) →
  Stop E ctx2 (r', w') = (o2, (r2, w2)) →
  id r' = id r ∧ r' = r ∧
  o2 ≠ Returned (Some ErrNoContainerId) ∧
  (∀ c, client r = Some c →
        ∃ rest, calls w2 =
                (calls w' ++
                 CallContainerStop c ctx2 (id r) time_Minute :: rest)%list) ∧
  (∀ c opt, client r = Some c → opts r = Some opt →
            RemoveOnFinalization opt = true →
            ContainerStop E (calls w') c ctx2 (id r) time_Minute = None →
            calls w2 =
              (calls w' ++ [CallContainerStop c ctx2 (id r) time_Minute;
                            CallContainerRemove c ctx2 (id r)])%list).
Proof.
  intros Hid Hrun1 Hrun2.
  apply Stop_cases in Hrun1.
  destruct (Stop_run_frame _ _ _ _ _ _ _ Hrun1) as [-> _].
  apply Stop_cases in Hrun2.
  split; [done|]. split; [done|]. split.
  { destruct Hrun2; [by destruct Hid | discriminate..]. }
  split.
  - intros c Hc. destruct Hrun2; simplify_eq; by eexists.
  - intros c opt Hc Ho Hrm Hstop.
    destruct Hrun2; try congruence; by simplify_eq.
Qed.

Lemma Stop_keeps_id_witness :
  id (Stop engine_ok ctx0
        (set_id "abc" (set_client (Some c1) mongo_runner), fresh_world)).2.1
  = "abc" ∧
  (Stop engine_ok ctx0
     (Stop engine_ok ctx0
        (set_id "abc" (set_client (Some c1) mongo_runner),
         fresh_world)).2).1
  ≠ Returned (Some ErrNoContainerId).
Proof.
  pose proof (Stop_keeps_id engine_ok ctx0 ctx0
    (set_id "abc" (set_client (Some c1) mongo_runner))
    (Stop engine_ok ctx0
       (set_id "abc" (set_client (Some c1) mongo_runner), fresh_world)).2.1
    (Stop engine_ok ctx0
       (Stop engine_ok ctx0
          (set_id "abc" (set_client (Some c1) mongo_runner),
           fresh_world)).2).2.1
    fresh_world
    (Stop engine_ok ctx0
       (set_id "abc" (set_client (Some c1) mongo_runner), fresh_world)).2.2
    (Stop engine_ok ctx0
       (Stop engine_ok ctx0
          (set_id "abc" (set_client (Some c1) mongo_runner),
           fresh_world)).2).2.2
    (Stop engine_ok ctx0
       (set_id "abc" (set_client (Some c1) mongo_runner), fresh_world)).1
    (Stop engine_ok ctx0
       (Stop engine_ok ctx0
          (set_id "abc" (set_client (Some c1) mongo_runner),
           fresh_world)).2).1
    ltac:(discriminate) ltac:(by vm_compute) ltac:(by vm_compute))
    as (Hid & _ & Hnot & _).
  split; [exact Hid | exact Hnot].
Defined.

(** ** The options pointer *)

(** C10. [NewContainerRunner] sets a non-nil options pointer and
    [WithOptions] stores whatever pointer it is given, nil included.  [Stop]
    reads the flag through that pointer without a check: on a runner with an
    identifier and a client, once the engine has stopped the container, a nil
    options pointer makes [Stop] panic with a nil dereference, and a non-nil
    one never does. *)
Theorem Stop_nil_options (E : Engine) (ctx : Ctx) (r : ContainerRunner)
    (w : World) (c : Client) :
  id r ≠ "" → client r = Some c →
  (∃ o, opts NewContainerRunner = Some o) ∧
  (∀ o r0, opts (WithOptions o r0) = o) ∧
  (ContainerStop E (calls w) c ctx (id r) time_Minute = None →
   Stop E ctx (WithOptions None r, w) =
     (Panicked NilPointerDereference,
      (WithOptions None r,
       extend w [CallContainerStop c ctx (id r) time_Minute]
              ["stopping container"; "container stopped"]))) ∧
  (opts r = None →
   ContainerStop E (calls w) c ctx (id r) time_Minute = None →
   (Stop E ctx (r, w)).1 = Panicked NilPointerDereference) ∧
  (∀ o, opts r = Some o → ∀ p, (Stop E ctx (r, w)).1 ≠ Panicked p).
Proof.
  intros Hid Hc. split; [by eexists|]. split; [done|]. split; [|split].
  - intros Hstop.
    by apply Stop_run_sound,
      (Stop_opts_nil E ctx (WithOptions None r) w c).
  - intros Ho Hstop.
    by rewrite (Stop_run_sound E ctx _ _ _ _ _
                  (Stop_opts_nil E ctx r w c Hid Hc Hstop Ho)).
  - intros o Ho p Hp.
    destruct (Stop E ctx (r, w)) as [o1 [r1 w1]] eqn:Hrun.
    apply Stop_cases in Hrun. simpl in Hp. subst o1.
    inversion Hrun; congruence.
Qed.

Lemma Stop_nil_options_witness :
  Stop engine_ok ctx0
    (WithOptions None (set_id "abc" (set_client (Some c1) mongo_runner)),
     fresh_world)
  = (Panicked NilPointerDereference,
     (WithOptions None (set_id "abc" (set_client (Some c1) mongo_runner)),
      extend fresh_world [CallContainerStop c1 ctx0 "abc" time_Minute]
             ["stopping container"; "container stopped"])).
Proof.
  refine (proj1 (proj2 (proj2
    (Stop_nil_options engine_ok ctx0
       (set_id "abc" (set_client (Some c1) mongo_runner)) fresh_world c1
       _ _))) _).
  - discriminate.
  - reflexivity.
  - reflexivity.
Defined.

(** ** Failures *)




(** * Further properties of the builder and the lifecycle *)

(** ** [substringContainedInSlice] on arbitrary slices *)

Lemma substringContainedInSlice_app (str : string) (l1 l2 : list string) :
  substringContainedInSlice str (l1 ++ l2) =
    substringContainedInSlice str l1 || substringContainedInSlice str l2.
Proof.
  induction l1 as [|s l1 IH]; simpl; [done|].
  by destruct (strings.Contains str s).
Qed.

Lemma empty_is_substring (str : string) : is_substring "" str.
Proof. by exists "", str. Qed.

(** X1. [substringContainedInSlice(str, substrs)] is true exactly when some
    member of [substrs] occurs in [str].  So it is false for the empty slice,
    true as soon as the slice holds the empty string, and over a slice put
    together from two it is the disjunction of the two answers. *)
Theorem substringContainedInSlice_correct (str : string)
    (substrs more : list string) :
  (substringContainedInSlice str substrs = true ↔
   ∃ s, s ∈ substrs ∧ is_substring s str) ∧
  substringContainedInSlice str [] = false ∧
  ("" ∈ substrs → substringContainedInSlice str substrs = true) ∧
  substringContainedInSlice str (substrs ++ more) =
    substringContainedInSlice str substrs ||
    substringContainedInSlice str more.
Proof.
  split; [apply substringContainedInSlice_spec|]. split; [done|].
  split; [|apply substringContainedInSlice_app].
  intros Hin. apply substringContainedInSlice_spec.
  exists "". split; [done | apply empty_is_substring].
Qed.

Lemma substringContainedInSlice_correct_witness :
  substringContainedInSlice "mongo" [".com"; ""] = true.
Proof.
  refine (proj1 (proj2 (proj2
    (substringContainedInSlice_correct "mongo" [".com"; ""] []))) _).
  apply list_elem_of_In. simpl. right. by left.
Defined.

(** ** The stored image *)

(** X2. Whatever name [WithImage] is given, the image it stores contains one
    of the registry suffixes and ends with the name given; [WithImage]
    changes no field but the image. *)
Theorem WithImage_stores_qualified_image (img : string) (r : ContainerRunner) :
  (∃ ext, ext ∈ RegistryExtensionOptions ∧
          is_substring ext (image (WithImage img r))) ∧
  (∃ pre, image (WithImage img r) = pre +:+ img) ∧
  WithImage img r = set_image (image (WithImage img r)) r.
Proof.
  split; [|split].
  - apply substringContainedInSlice_spec. rewrite WithImage_image.
    destruct (substringContainedInSlice img RegistryExtensionOptions) eqn:Hs;
      [done | apply default_registry_is_recognised].
  - rewrite WithImage_image.
    destruct (substringContainedInSlice img RegistryExtensionOptions);
      [by exists "" | by exists "docker.io/library/"].
  - unfold WithImage.
    by destruct (substringContainedInSlice img RegistryExtensionOptions).
Qed.

(** ** Environment variables *)

(** X3. Environment variables pile up in the order of the calls, one
    "KEY=VALUE" string for each call, nothing merged and nothing dropped: a
    key set twice is there twice.  No other field changes. *)
Theorem WithEnvironmentVariable_accumulates (kvs : list (string * string))
    (r : ContainerRunner) :
  chain_WithEnvironmentVariable kvs r =
    set_env (env r ++ ((λ kv, kv.1 +:+ "=" +:+ kv.2) <$> kvs)) r ∧
  length (env (chain_WithEnvironmentVariable kvs r)) =
    (length (env r) + length kvs)%nat.
Proof.
  assert (chain_WithEnvironmentVariable kvs r =
          set_env (env r ++ ((λ kv, kv.1 +:+ "=" +:+ kv.2) <$> kvs)) r) as H.
  { unfold chain_WithEnvironmentVariable. revert r.
    induction kvs as [|kv kvs IH]; intros r; simpl.
    - rewrite app_nil_r. by destruct r.
    - rewrite IH. unfold WithEnvironmentVariable, set_env. simpl.
      by rewrite <- app_assoc. }
  split; [done|]. rewrite H. simpl. by rewrite length_app, length_fmap.
Qed.

(** ** What [Start] reads and what it writes *)

Section start_frame.

Variable E : Engine.
Variable ctx : Ctx.

Lemma Start_run_other_env_ports (r r' : ContainerRunner) (w w' : World)
    (o : outcome (option error)) (e p : list string) :
  Start_run E ctx r w o r' w' →
  Start_run E ctx (set_ports p (set_env e r)) w o
            (set_ports p (set_env e r')) w'.
Proof.
  destruct 1 as [c msg H1|H1|c msg H1 H2|c ID msg H1 H2 H3
                 |c ID msg H1 H2 H3 H4|c ID H1 H2 H3 H4].
  - exact (Start_client_fails E ctx (set_ports p (set_env e r)) w c msg H1).
  - exact (Start_client_nil E ctx (set_ports p (set_env e r)) w H1).
  - exact (Start_pull_fails E ctx (set_ports p (set_env e r)) w c msg H1 H2).
  - exact (Start_create_fails E ctx (set_ports p (set_env e r)) w c ID msg
             H1 H2 H3).
  - exact (Start_start_fails E ctx (set_ports p (set_env e r)) w c ID msg
             H1 H2 H3 H4).
  - exact (Start_succeeds E ctx (set_ports p (set_env e r)) w c ID
             H1 H2 H3 H4).
Qed.



Lemma Start_run_configuration (r r' : ContainerRunner) (w w' : World)
    (o : outcome (option error)) :
  Start_run E ctx r w o r' w' → configuration r' = configuration r.
Proof. by destruct 1. Qed.

Lemma Start_run_budget (r r' : ContainerRunner) (w w' : World)
    (o : outcome (option error)) :
  Start_run E ctx r w o r' w' →
  ∃ new, calls w' = (calls w ++ CallNewEnvClient :: new)%list ∧
         (length new ≤ 3)%nat.
Proof. destruct 1; eexists; (split; [reflexivity | simpl; lia]). Qed.

Lemma Stop_run_budget (r r' : ContainerRunner) (w w' : World)
    (o : outcome (option error)) :
  Stop_run E ctx r w o r' w' →
  ∃ new, calls w' = (calls w ++ new)%list ∧ (length new ≤ 2)%nat.
Proof. destruct 1; eexists; (split; [reflexivity | simpl; lia]). Qed.

End start_frame.

(** X4. The environment variables and the list of ports never reach the
    engine: [Start] on a runner with another environment and another port
    list returns the same result after the same requests, and leaves both
    as it found them.  (The container is created from the image, the exposed
    ports, the port bindings and the name alone.) *)
Theorem Start_ignores_env_and_ports (E : Engine) (ctx : Ctx)
    (r : ContainerRunner) (w : World) (e p : list string) :
  Start E ctx (set_ports p (set_env e r), w) =
    ((Start E ctx (r, w)).1,
     (set_ports p (set_env e (Start E ctx (r, w)).2.1),
      (Start E ctx (r, w)).2.2)).
Proof.
  destruct (Start E ctx (r, w)) as [o [r' w']] eqn:Hrun. simpl.
  apply Start_cases in Hrun.
  by apply Start_run_sound, Start_run_other_env_ports.
Qed.

(** X5. [Start] and [Stop] never change what the setters configured: name,
    image, ports, environment, exposed ports, port bindings and options are
    after the call what they were before it, whatever its outcome. *)
Theorem lifecycle_keeps_configuration (E : Engine) (ctx : Ctx)
    (r : ContainerRunner) (w : World) :
  configuration (Start E ctx (r, w)).2.1 = configuration r ∧
  configuration (Stop E ctx (r, w)).2.1 = configuration r.
Proof.
  split.
  - destruct (Start E ctx (r, w)) as [o [r' w']] eqn:Hrun. simpl.
    apply Start_cases in Hrun. by apply Start_run_configuration in Hrun.
  - destruct (Stop E ctx (r, w)) as [o [r' w']] eqn:Hrun. simpl.
    apply Stop_cases in Hrun.
    by destruct (Stop_run_frame _ _ _ _ _ _ _ Hrun) as [-> _].
Qed.

(** X6. [Start] returns nil exactly when the engine answers all four
    requests without an error: a client, the pull of the stored image, the
    creation of the container from the stored image, ports and name, and its
    start under the identifier just returned.  The runner then holds that
    client and that identifier, and the engine has received these four
    requests, in this order, and no other. *)
Theorem Start_succeeds_iff (E : Engine) (ctx : Ctx) (r r' : ContainerRunner)
    (w w' : World) :
  Start E ctx (r, w) = (Returned None, (r', w')) ↔
  ∃ c ID,
    NewEnvClient E (calls w) = (Some c, None) ∧
    ImagePull E (calls w ++ [CallNewEnvClient]) c ctx (image r) = None ∧
    ContainerCreate E
      (calls w ++ [CallNewEnvClient; CallImagePull c ctx (image r)]) c ctx
      {| Image := image r; ExposedPorts := exposedPorts r |}
      {| PortBindings := portBindings r |} (name r) = (ID, None) ∧
    ContainerStart E
      (calls w ++ [CallNewEnvClient; CallImagePull c ctx (image r);
                   CallContainerCreate c ctx
                     {| Image := image r; ExposedPorts := exposedPorts r |}
                     {| PortBindings := portBindings r |} (name r)])
      c ctx ID = None ∧
    r' = set_id ID (set_client (Some c) r) ∧
    calls w' =
      (calls w ++ [CallNewEnvClient; CallImagePull c ctx (image r);
                   CallContainerCreate c ctx
                     {| Image := image r; ExposedPorts := exposedPorts r |}
                     {| PortBindings := portBindings r |} (name r);
                   CallContainerStart c ctx ID])%list ∧
    logged w' =
      (logged w ++ ["pulling image"; "creating container";
                    "starting container"; "container started"])%list.
Proof.
  split.
  - intros Hrun. apply Start_cases in Hrun.
    inversion Hrun as [| | | | |c ID H1 H2 H3 H4]; subst.
    by exists c, ID.
  - intros (c & ID & H1 & H2 & H3 & H4 & -> & Hcalls & Hlog).
    rewrite (Start_run_sound E ctx _ _ _ _ _
               (Start_succeeds E ctx r w c ID H1 H2 H3 H4)).
    destruct w' as [cs ls]. simpl in *. subst. done.
Qed.

Lemma Start_succeeds_iff_witness :
  Start engine_ok ctx0 (mongo_runner, fresh_world) =
    (Returned None,
     (set_id "abc" (set_client (Some c1) mongo_runner),
      extend fresh_world
        [CallNewEnvClient; CallImagePull c1 ctx0 (image mongo_runner);
         create_call c1 ctx0 mongo_runner; CallContainerStart c1 ctx0 "abc"]
        ["pulling image"; "creating container"; "starting container";
         "container started"])).
Proof.
  apply (proj2 (Start_succeeds_iff engine_ok ctx0 mongo_runner _
                  fresh_world _)).
  exists c1, "abc". repeat split; reflexivity.
Defined.


(** ** [WithPorts] on any runner *)

Section with_ports_facts.

Lemma for_range_commutes {St A} (f : St → St) (body : A → M St unit) :
  (∀ x s, body x (f s) = ((body x s).1, f (body x s).2)) →
  ∀ xs s, for_range xs body (f s) =
          ((for_range xs body s).1, f (for_range xs body s).2).
Proof.
  intros Hbody xs. induction xs as [|x xs IH]; intros s; [done|].
  cbn [for_range]. unfold mbind, M_bind. rewrite Hbody.
  destruct (body x s) as [[[]|p] s1]; simpl; [apply IH | done].
Qed.

Lemma WithPorts_body_cases (p : Z) (r : ContainerRunner) :
  WithPorts_body p r =
    match exposedPorts r, portBindings r with
    | None, _ =>
        (Panicked NilMapAssignment,
         set_ports (ports r ++ [strconv.Itoa p]) r)
    | Some s, None =>
        (Panicked NilMapAssignment,
         set_exposedPorts (Some ({[ strconv.Itoa p ]} ∪ s))
           (set_ports (ports r ++ [strconv.Itoa p]) r))
    | Some s, Some m =>
        (Returned tt,
         set_portBindings
           (Some (<[ strconv.Itoa p := loopback (strconv.Itoa p) ]> m))
           (set_exposedPorts (Some ({[ strconv.Itoa p ]} ∪ s))
              (set_ports (ports r ++ [strconv.Itoa p]) r)))
    end.
Proof.
  unfold WithPorts_body, mbind, M_bind, modify, get, raise. simpl.
  destruct (exposedPorts r); simpl; [|done].
  by destruct (portBindings r).
Qed.

Lemma WithPorts_cons (p : Z) (ps : list Z) (r : ContainerRunner) :
  WithPorts (p :: ps) r =
    match WithPorts_body p r with
    | (Returned _, r1) => WithPorts ps r1
    | (Panicked q, r1) => (Panicked q, r1)
    end.
Proof.
  unfold WithPorts. cbn [for_range]. unfold mbind, M_bind.
  by destruct (WithPorts_body p r) as [[[]|q] r1].
Qed.

Lemma WithPorts_commutes (f : ContainerRunner → ContainerRunner) :
  (∀ r, ports (f r) = ports r ∧ exposedPorts (f r) = exposedPorts r ∧
        portBindings (f r) = portBindings r) →
  (∀ v r, f (set_ports v r) = set_ports v (f r)) →
  (∀ v r, f (set_exposedPorts v r) = set_exposedPorts v (f r)) →
  (∀ v r, f (set_portBindings v r) = set_portBindings v (f r)) →
  ∀ ps r, WithPorts ps (f r) = ((WithPorts ps r).1, f (WithPorts ps r).2).
Proof.
  intros Hkeep Hp He Hb ps r. unfold WithPorts.
  apply for_range_commutes. clear ps r. intros p r.
  rewrite !WithPorts_body_cases.
  destruct (Hkeep r) as (-> & -> & ->).
  destruct (exposedPorts r), (portBindings r); simpl;
    by rewrite ?Hb, ?He, ?Hp.
Qed.

End with_ports_facts.

(** X8. [WithPorts] panics, with an assignment to an entry of a nil map,
    exactly when it is given at least one port and one of the runner's two
    port maps is nil (as in a runner not made by [NewContainerRunner]);
    otherwise it returns.  With no port it returns the runner untouched.
    When the exposed-port map is nil, the first port has already been
    appended to the port list when the panic comes. *)
Theorem WithPorts_panics_iff (ps : list Z) (r : ContainerRunner) :
  ((WithPorts ps r).1 = Panicked NilMapAssignment ↔
   ps ≠ [] ∧ (exposedPorts r = None ∨ portBindings r = None)) ∧
  ((WithPorts ps r).1 = Returned tt ↔
   ps = [] ∨ (is_Some (exposedPorts r) ∧ is_Some (portBindings r))) ∧
  WithPorts [] r = (Returned tt, r) ∧
  (∀ p ps', ps = p :: ps' → exposedPorts r = None →
            (WithPorts ps r).2 = set_ports (ports r ++ [strconv.Itoa p]) r).
Proof.
  assert (∀ s m, exposedPorts r = Some s → portBindings r = Some m →
                 (WithPorts ps r).1 = Returned tt) as Hok.
  { intros s m Hs Hm. by rewrite (WithPorts_spec ps r s m Hs Hm). }
  assert (ps ≠ [] → exposedPorts r = None ∨ portBindings r = None →
          (WithPorts ps r).1 = Panicked NilMapAssignment) as Hbad.
  { intros Hne Hnil. destruct ps as [|p ps']; [done|].
    rewrite WithPorts_cons, WithPorts_body_cases.
    destruct (exposedPorts r) as [s|]; [|done].
    destruct (portBindings r) as [m|]; [|done].
    by destruct Hnil. }
  split; [|split; [|split]].
  - split; [|intros [? ?]; by apply Hbad].
    intros Hp. destruct ps as [|p ps']; [discriminate Hp|].
    split; [done|].
    destruct (exposedPorts r) as [s|] eqn:Hs; [|by left].
    destruct (portBindings r) as [m|] eqn:Hm; [|by right].
    rewrite (Hok s m eq_refl eq_refl) in Hp. discriminate Hp.
  - split.
    + intros Hr. destruct ps as [|p ps']; [by left | right].
      destruct (exposedPorts r) as [s|] eqn:Hs;
        [destruct (portBindings r) as [m|] eqn:Hm|]; [done|..];
        rewrite Hbad in Hr; try done; auto.
    + intros [->|[[s Hs] [m Hm]]]; [done | by eapply Hok].
  - done.
  - intros p ps' -> He.
    by rewrite WithPorts_cons, WithPorts_body_cases, He.
Qed.

Lemma WithPorts_panics_iff_witness :
  (WithPorts [80] (set_exposedPorts None NewContainerRunner)).2
  = set_ports ["80"] (set_exposedPorts None NewContainerRunner).
Proof.
  refine (proj2 (proj2 (proj2
    (WithPorts_panics_iff [80] (set_exposedPorts None NewContainerRunner))))
    80 [] _ _); reflexivity.
Defined.

(** X9. On a runner whose two port maps are not nil, whatever they hold,
    [WithPorts] returns; it appends the ports to the port list in the order
    given, repeats included; it exposes them beside the ports exposed
    before; it binds each of them to the loopback address and itself,
    replacing any binding the port had; and it leaves every other binding
    and every other field as it was. *)
Theorem WithPorts_adds_and_rebinds (ps : list Z) (r : ContainerRunner)
    (s : gset string) (m : gmap string (list PortBinding)) :
  exposedPorts r = Some s → portBindings r = Some m →
  ∃ r' s' m',
    WithPorts ps r = (Returned tt, r') ∧
    ports r' = (ports r ++ (strconv.Itoa <$> ps))%list ∧
    exposedPorts r' = Some s' ∧ portBindings r' = Some m' ∧
    (∀ k, k ∈ s' ↔ k ∈ s ∨ k ∈ strconv.Itoa <$> ps) ∧
    (∀ k, k ∈ strconv.Itoa <$> ps →
          m' !! k = Some [ {| HostIP := "127.0.0.1"; HostPort := k |} ]) ∧
    (∀ k, k ∉ strconv.Itoa <$> ps → m' !! k = m !! k) ∧
    (name r', image r', env r', opts r', client r', id r')
      = (name r, image r, env r, opts r, client r, id r).
Proof.
  intros Hs Hm. eexists _, _, _.
  split; [apply (WithPorts_spec ps r s m Hs Hm)|]. simpl.
  split; [done|]. split; [done|]. split; [done|]. split; [|split; [|split]].
  - intros k. rewrite elem_of_expose_all, list_elem_of_fmap.
    split; (intros [?|(p & ? & ?)]; [by left | right; by exists p]).
  - intros k Hk. by rewrite lookup_bind_all, decide_True.
  - intros k Hk. by rewrite lookup_bind_all, decide_False.
  - done.
Qed.

Lemma WithPorts_adds_and_rebinds_witness :
  ∃ r' s' m',
    WithPorts [8080; 8080]
      (set_portBindings
         (Some {[ "8080" := [ {| HostIP := "0.0.0.0"; HostPort := "80" |} ] ]})
         NewContainerRunner) = (Returned tt, r') ∧
    ports r' = ["8080"; "8080"] ∧
    exposedPorts r' = Some s' ∧ portBindings r' = Some m' ∧
    m' !! "8080" = Some [ {| HostIP := "127.0.0.1"; HostPort := "8080" |} ].
Proof.
  destruct (WithPorts_adds_and_rebinds [8080; 8080]
              (set_portBindings
                 (Some {[ "8080" := [ {| HostIP := "0.0.0.0";
                                         HostPort := "80" |} ] ]})
                 NewContainerRunner) ∅ _ eq_refl eq_refl)
    as (r' & s' & m' & Hrun & Hports & Hs & Hm & _ & Hbind & _).
  exists r', s', m'. repeat split; try done.
  apply Hbind. apply list_elem_of_In. by left.
Defined.

(** X10. For the two port maps only the set of ports given matters, not
    their order and not how often each is given: two calls of [WithPorts]
    with the same ports in any order and number leave the same exposed ports
    and the same bindings.  (The port list does tell them apart.) *)
Theorem WithPorts_maps_depend_on_port_set (ps1 ps2 : list Z)
    (r : ContainerRunner) :
  is_Some (exposedPorts r) → is_Some (portBindings r) →
  (∀ p, p ∈ ps1 ↔ p ∈ ps2) →
  exposedPorts (WithPorts ps1 r).2 = exposedPorts (WithPorts ps2 r).2 ∧
  portBindings (WithPorts ps1 r).2 = portBindings (WithPorts ps2 r).2.
Proof.
  intros [s Hs] [m Hm] Hset.
  rewrite !(WithPorts_spec _ r s m Hs Hm). simpl.
  assert (∀ k, k ∈ strconv.Itoa <$> ps1 ↔ k ∈ strconv.Itoa <$> ps2) as Hk.
  { intros k. rewrite !list_elem_of_fmap.
    split; intros (p & -> & Hp); exists p; by rewrite ?Hset in *. }
  split; f_equal.
  - apply set_eq. intros k. rewrite !elem_of_expose_all.
    assert ((∃ p, p ∈ ps1 ∧ k = strconv.Itoa p) ↔
            (∃ p, p ∈ ps2 ∧ k = strconv.Itoa p)) as ->; [|done].
    split; intros (p & Hp & ->); exists p; by rewrite ?Hset in *.
  - apply map_eq. intros k. rewrite !lookup_bind_all.
    destruct (decide (k ∈ strconv.Itoa <$> ps1)) as [H1|H1];
      destruct (decide (k ∈ strconv.Itoa <$> ps2)) as [H2|H2];
      try done; by apply Hk in H1 || apply Hk in H2.
Qed.

Lemma WithPorts_maps_depend_on_port_set_witness :
  exposedPorts (WithPorts [80; 443; 80] NewContainerRunner).2
    = exposedPorts (WithPorts [443; 80] NewContainerRunner).2 ∧
  portBindings (WithPorts [80; 443; 80] NewContainerRunner).2
    = portBindings (WithPorts [443; 80] NewContainerRunner).2.
Proof.
  apply (WithPorts_maps_depend_on_port_set [80; 443; 80] [443; 80]
           NewContainerRunner).
  - by eexists.
  - by eexists.
  - intros p. rewrite !list_elem_of_In. simpl. tauto.
Defined.

(** ** The order of the setters *)

(** X11. Setters of different fields can be called in any order: [WithPorts]
    commutes with [WithImage], [WithName], [WithEnvironmentVariable] and
    [WithOptions] (also when it panics), and these four commute with each
    other. *)
Theorem setters_commute (u : uuid.UUID) (ps : list Z) (img n key val : string)
    (o : option ContainerRunnerOpts) (r : ContainerRunner) :
  WithPorts ps (WithImage img r)
    = ((WithPorts ps r).1, WithImage img (WithPorts ps r).2) ∧
  WithPorts ps (WithName u n r)
    = ((WithPorts ps r).1, WithName u n (WithPorts ps r).2) ∧
  WithPorts ps (WithEnvironmentVariable key val r)
    = ((WithPorts ps r).1, WithEnvironmentVariable key val (WithPorts ps r).2) ∧
  WithPorts ps (WithOptions o r)
    = ((WithPorts ps r).1, WithOptions o (WithPorts ps r).2) ∧
  WithImage img (WithName u n r) = WithName u n (WithImage img r) ∧
  WithImage img (WithEnvironmentVariable key val r)
    = WithEnvironmentVariable key val (WithImage img r) ∧
  WithImage img (WithOptions o r) = WithOptions o (WithImage img r) ∧
  WithName u n (WithEnvironmentVariable key val r)
    = WithEnvironmentVariable key val (WithName u n r) ∧
  WithName u n (WithOptions o r) = WithOptions o (WithName u n r) ∧
  WithEnvironmentVariable key val (WithOptions o r)
    = WithOptions o (WithEnvironmentVariable key val r).
Proof.
  repeat apply conj.
  - apply (WithPorts_commutes (WithImage img)); intros; unfold WithImage;
      by destruct (substringContainedInSlice img RegistryExtensionOptions).
  - apply (WithPorts_commutes (WithName u n)); intros; unfold WithName;
      by case_decide.
  - by apply (WithPorts_commutes (WithEnvironmentVariable key val)).
  - by apply (WithPorts_commutes (WithOptions o)).
  - unfold WithImage, WithName.
    destruct (substringContainedInSlice img RegistryExtensionOptions);
      by case_decide.
  - unfold WithImage.
    by destruct (substringContainedInSlice img RegistryExtensionOptions).
  - unfold WithImage.
    by destruct (substringContainedInSlice img RegistryExtensionOptions).
  - unfold WithName. by case_decide.
  - unfold WithName. by case_decide.
  - done.
Qed.

(** ** [Start], then [Stop] *)

(** X12. After a [Start] that returned nil and stored a non-empty
    identifier, the runner holds the client [NewEnvClient] returned and the
    identifier the engine gave the created container, and [Stop] begins by
    asking the engine, through that client, to stop that container with a
    timeout of one minute; it does not return the missing-identifier error,
    and it does not panic unless the options pointer is nil. *)
Theorem Start_then_Stop (E : Engine) (ctx ctx2 : Ctx)
    (r r' : ContainerRunner) (w w' : World) :
  Start E ctx (r, w) = (Returned None, (r', w')) → id r' ≠ "" →
  ∃ c, NewEnvClient E (calls w) = (Some c, None) ∧
       client r' = Some c ∧
       created E (calls w') (id r') ∧
       (∃ rest, calls (Stop E ctx2 (r', w')).2.2 =
                (calls w' ++
                 CallContainerStop c ctx2 (id r') 60000000000 :: rest)%list) ∧
       (Stop E ctx2 (r', w')).1 ≠ Returned (Some ErrNoContainerId) ∧
       (opts r ≠ None → ∀ p, (Stop E ctx2 (r', w')).1 ≠ Panicked p).
Proof.
  intros Hstart Hid. apply Start_cases in Hstart.
  pose proof (Start_run_id E _ _ _ _ _ _ Hstart) as Hcr.
  inversion Hstart as [| | | | |c ID H1 H2 H3 H4]; subst.
  exists c. split; [done|]. split; [done|]. split.
  { destruct Hcr as [Hsame|Hcr]; [|done].
    unfold create_answer, create_call, extend in *. simpl.
    eexists (calls w ++ [_; _])%list, _, _, _, _, _, [_].
    split; [by rewrite <- app_assoc | eassumption]. }
  assert (client (set_id ID (set_client (Some c) r)) = Some c) as Hc by done.
  assert (opts (set_id ID (set_client (Some c) r)) = opts r) as Ho' by done.
  revert Hid Hc Ho'. generalize (set_id ID (set_client (Some c) r)).
  intros r' Hid Hc Ho'.
  destruct (Stop E ctx2 _) as [o2 [r2 w2]] eqn:Hstop. simpl.
  apply Stop_cases in Hstop.
  split; [|split].
  - destruct Hstop; simplify_eq; by eexists.
  - destruct Hstop; by simplify_eq.
  - intros Ho p ->. inversion Hstop; congruence.
Qed.

Lemma Start_then_Stop_witness :
  ∃ c, NewEnvClient engine_ok [] = (Some c, None) ∧
       (∃ rest,
          calls (Stop engine_ok ctx0
                   (Start engine_ok ctx0 (mongo_runner, fresh_world)).2).2.2 =
          (calls (Start engine_ok ctx0 (mongo_runner, fresh_world)).2.2 ++
           CallContainerStop c ctx0 "abc" 60000000000 :: rest)%list).
Proof.
  destruct (Start_then_Stop engine_ok ctx0 ctx0 mongo_runner
              (Start engine_ok ctx0 (mongo_runner, fresh_world)).2.1
              fresh_world
              (Start engine_ok ctx0 (mongo_runner, fresh_world)).2.2
              ltac:(by vm_compute) ltac:(discriminate))
    as (c & Hnew & _ & _ & Hstop & _).
  exists c. split; [exact Hnew | exact Hstop].
Defined.

(** ** Invariants of histories *)

Section history_invariants.

Variable u : uuid.UUID.
Variable E : Engine.

Lemma ports_in_sync_configuration (r r' : ContainerRunner) :
  (ports r', exposedPorts r', portBindings r')
    = (ports r, exposedPorts r, portBindings r) →
  ports_in_sync r → ports_in_sync r'.
Proof.
  intros [= Hp He Hb] (s & m & Hs & Hm & Hset & Hmap).
  exists s, m. rewrite Hp, He, Hb. done.
Qed.

Lemma ports_in_sync_WithPorts (ps : list Z) (r : ContainerRunner) :
  ports_in_sync r →
  (WithPorts ps r).1 = Returned tt ∧ ports_in_sync (WithPorts ps r).2.
Proof.
  intros (s & m & Hs & Hm & Hset & Hmap).
  rewrite (WithPorts_spec ps r s m Hs Hm). split; [done|]. simpl.
  exists (expose_all ps s), (bind_all ps m). simpl.
  split; [done|]. split; [done|]. split.
  - intros k.
    rewrite elem_of_expose_all, elem_of_app, Hset, list_elem_of_fmap.
    split; (intros [?|(p & ? & ?)]; [by left | right; by exists p]).
  - intros k. rewrite lookup_bind_all, Hmap.
    destruct (decide (k ∈ strconv.Itoa <$> ps)) as [H1|H1];
      destruct (decide (k ∈ ports r)) as [H2|H2];
      destruct (decide (k ∈ (ports r ++ (strconv.Itoa <$> ps))%list))
        as [H3|H3];
      try done; rewrite elem_of_app in H3; tauto.
Qed.

Lemma invoke_ports_in_sync (m : Method) (s : State) :
  ports_in_sync s.1 →
  (invoke u E m s).1 ≠ Panicked NilMapAssignment ∧
  ports_in_sync (invoke u E m s).2.1.
Proof.
  destruct s as [r w]. simpl. intros Hsync.
  destruct m as [ps|img|n|key val|o|ctx|ctx]; simpl.
  - unfold on_runner. simpl.
    destruct (ports_in_sync_WithPorts ps r Hsync) as [Hret Hsync'].
    destruct (WithPorts ps r) as [o1 r1]. simpl in *. by subst.
  - split; [done|]. revert Hsync. apply ports_in_sync_configuration.
    unfold WithImage.
    by destruct (substringContainedInSlice img RegistryExtensionOptions).
  - split; [done|]. revert Hsync. apply ports_in_sync_configuration.
    unfold WithName. by case_decide.
  - split; [done|]. revert Hsync. by apply ports_in_sync_configuration.
  - split; [done|]. revert Hsync. by apply ports_in_sync_configuration.
  - unfold mbind, M_bind, mret, M_ret.
    destruct (Start E ctx (r, w)) as [o1 [r1 w1]] eqn:Hrun.
    apply Start_cases in Hrun.
    assert (ports_in_sync r1) as Hsync1.
    { revert Hsync. apply ports_in_sync_configuration.
      apply Start_run_configuration in Hrun. unfold configuration in Hrun.
      by injection Hrun as _ _ -> _ -> -> _. }
    destruct Hrun; simpl; by split.
  - unfold mbind, M_bind, mret, M_ret.
    destruct (Stop E ctx (r, w)) as [o1 [r1 w1]] eqn:Hrun.
    apply Stop_cases in Hrun. destruct Hrun; simpl; by split.
Qed.

Lemma invoke_budget (m : Method) (s : State) :
  ∃ new, calls (invoke u E m s).2.2 = (calls s.2 ++ new)%list ∧
         (length new ≤ engine_budget [m])%nat.
Proof.
  destruct s as [r w]. unfold engine_budget. simpl.
  destruct m as [ps|img|n|key val|o|ctx|ctx]; simpl;
    try (exists []; by rewrite app_nil_r).
  - unfold on_runner. simpl. destruct (WithPorts ps r) as [o1 r1]. simpl.
    exists []. by rewrite app_nil_r.
  - unfold mbind, M_bind, mret, M_ret.
    destruct (Start E ctx (r, w)) as [o1 [r1 w1]] eqn:Hrun.
    apply Start_cases, Start_run_budget in Hrun as (new & Hcalls & Hlen).
    exists (CallNewEnvClient :: new).
    split; [by destruct o1 | simpl; lia].
  - unfold mbind, M_bind, mret, M_ret.
    destruct (Stop E ctx (r, w)) as [o1 [r1 w1]] eqn:Hrun.
    apply Stop_cases, Stop_run_budget in Hrun as (new & Hcalls & Hlen).
    exists new. split; [by destruct o1 | lia].
Qed.

End history_invariants.

(** X13. Through every history of a runner made by [NewContainerRunner] the
    three records of its ports stay in step: the exposed ports are the ports
    in the port list, and the bound ports are the same ones, each bound to
    the loopback address and itself.  The two maps are never nil, so no
    call in such a history panics on a nil map. *)
Theorem ports_stay_in_sync (u : uuid.UUID) (E : Engine) (ms : list Method) :
  ports_in_sync (run u E ms (NewContainerRunner, fresh_world)).2.1 ∧
  (run u E ms (NewContainerRunner, fresh_world)).1
    ≠ Panicked NilMapAssignment.
Proof.
  assert (ports_in_sync NewContainerRunner) as Hnew.
  { exists ∅, ∅. simpl. split; [done|]. split; [done|]. split.
    - intros k. split; intros Hk; [by apply not_elem_of_empty in Hk|].
      by apply elem_of_nil in Hk.
    - intros k. by rewrite lookup_empty. }
  assert (∀ s, ports_in_sync s.1 →
               ports_in_sync (run u E ms s).2.1 ∧
               (run u E ms s).1 ≠ Panicked NilMapAssignment) as Hall.
  { unfold run. induction ms as [|m ms' IH]; intros s Hsync; [done|].
    cbn [for_range]. unfold mbind, M_bind.
    destruct (invoke_ports_in_sync u E m s Hsync) as [Hnp Hsync'].
    destruct (invoke u E m s) as [[[]|p] s1]; simpl in *; [by apply IH|].
    split; [done | congruence]. }
  by apply (Hall (NewContainerRunner, fresh_world)).
Qed.

(** X14. A history sends the engine at most four requests for each [Start]
    and two for each [Stop], and none for a setter: configuring a runner
    never talks to the engine.  Requests already sent stay in the trace as
    they are. *)
Theorem history_request_budget (u : uuid.UUID) (E : Engine)
    (ms : list Method) (r : ContainerRunner) (w : World) :
  ∃ new, calls (run u E ms (r, w)).2.2 = (calls w ++ new)%list ∧
         (length new ≤ engine_budget ms)%nat.
Proof.
  change w with (r, w).2 at 2. generalize (r, w). clear r w.
  unfold run. induction ms as [|m ms' IH]; intros s.
  - exists []. by rewrite app_nil_r.
  - cbn [for_range]. unfold mbind, M_bind.
    destruct (invoke_budget u E m s) as (new1 & Hcalls1 & Hlen1).
    unfold engine_budget in *. rewrite fmap_cons. simpl in *.
    destruct (invoke u E m s) as [[[]|p] s1]; simpl in *.
    + destruct (IH s1) as (new2 & Hcalls2 & Hlen2).
      exists (new1 ++ new2)%list. rewrite Hcalls2, Hcalls1, <- app_assoc.
      split; [done|]. rewrite length_app. lia.
    + exists new1. split; [done | lia].
Qed.
